(** * CarGrader lookup service ([app.py]): a shallow embedding

  The Flask application answers four read-only queries over the SQLite
  table [AllCars]: [/api/years], [/api/makes], [/api/models] and
  [/api/grade].  The views are embedded as computations in a small
  state-and-exception monad over a world that holds the data source, the
  per-request handle kept in [flask.g] and a trace of the calls made; the
  SELECT statements are embedded as list functions that follow SQLite's
  evaluation rules (NULL propagation, TRIM, CAST, DISTINCT, ORDER BY,
  LIMIT). *)

From stdpp Require Import base decidable option list sorting strings gmap.
From Stdlib Require Import ZArith Lia Ascii String.

Local Open Scope Z_scope.

(** ** Text primitives of SQLite and of the request layer *)

Module Text.

Definition space : ascii := " "%char.

(** Decimal digit value of a byte. *)
Definition digit (c : ascii) : option Z := Z.of_nat <$> Ascii.is_nat c.

(** SQLite's [TRIM(X)] removes the space character (0x20), and nothing
    else, from both ends of the text. *)
Fixpoint ltrim (s : string) : string :=
  match s with
  | String c s' => if decide (c = space) then ltrim s' else s
  | EmptyString => EmptyString
  end.

Definition rtrim (s : string) : string := String.rev (ltrim (String.rev s)).

Definition trim (s : string) : string := rtrim (ltrim s).

(** Whitespace skipped by the text-to-integer conversion of SQLite
    (tab, line feed, vertical tab, form feed, carriage return, space). *)
Fixpoint skip_space (s : string) : string :=
  match s with
  | String c s' => if Ascii.is_space c then skip_space s' else s
  | EmptyString => EmptyString
  end.

(** Value of the longest prefix of decimal digits; 0 when there is none. *)
Fixpoint digits_prefix (acc : Z) (s : string) : Z :=
  match s with
  | String c s' =>
      match digit c with
      | Some d => digits_prefix (10 * acc + d) s'
      | None => acc
      end
  | EmptyString => acc
  end.

Definition INT64_MIN : Z := -9223372036854775808.
Definition INT64_MAX : Z := 9223372036854775807.

Definition fits_int64 (z : Z) : Prop := INT64_MIN <= z <= INT64_MAX.

Definition clamp64 (z : Z) : Z := Z.max INT64_MIN (Z.min INT64_MAX z).

(** [CAST(text AS INTEGER)]: leading whitespace is skipped, an optional
    sign is read, the longest prefix of digits is converted and whatever
    follows is ignored.  Without any digit the result is 0; a value
    outside the signed 64-bit range is replaced by the nearest bound. *)
Definition cast_integer (s : string) : Z :=
  match skip_space s with
  | String c r =>
      if decide (c = "-"%char) then clamp64 (- digits_prefix 0 r)
      else if decide (c = "+"%char) then clamp64 (digits_prefix 0 r)
      else clamp64 (digits_prefix 0 (String c r))
  | EmptyString => 0
  end.

(** Python's [int(str)] as used by [request.args.get(key, type=int)], on
a text of ASCII bytes: the whitespace of C ([\t \n \v \f \r] and the
space) is stripped from both ends, then come an optional sign and
decimal digits, where single underscores may separate digits; a text
with more than 4300 digits, or anything else, raises [ValueError].
(A parameter with non-ASCII characters is outside this model.) *)
Definition py_space (c : ascii) : bool := Ascii.is_space c.

Fixpoint py_lstrip (s : string) : string :=
  match s with
  | String c s' => if py_space c then py_lstrip s' else s
  | EmptyString => EmptyString
  end.

Definition py_strip (s : string) : string :=
  String.rev (py_lstrip (String.rev (py_lstrip s))).

(** Digits that follow a digit already read. *)
Fixpoint py_digits (acc : Z) (s : string) : option Z :=
  match s with
  | EmptyString => Some acc
  | String c s' =>
      match digit c with
      | Some d => py_digits (10 * acc + d) s'
      | None =>
          if decide (c = "_"%char) then
            match s' with
            | String c' s'' =>
                match digit c' with
                | Some d => py_digits (10 * acc + d) s''
                | None => None
                end
            | EmptyString => None
            end
          else None
      end
  end.

Definition py_unsigned (s : string) : option Z :=
  match s with
  | String c s' =>
      match digit c with
      | Some d => py_digits d s'
      | None => None
      end
  | EmptyString => None
  end.

(** The limit on the number of digits of a text converted to [int]. *)
Definition MAX_STR_DIGITS : Z := 4300.

Fixpoint count_digits (s : string) : Z :=
  match s with
  | String c s' =>
      (if bool_decide (is_Some (digit c)) then 1 else 0) + count_digits s'
  | EmptyString => 0
  end.

Definition py_int (s : string) : option Z :=
  if decide (MAX_STR_DIGITS < count_digits (py_strip s)) then None
  else
    match py_strip s with
    | String c r =>
        if decide (c = "-"%char) then Z.opp <$> py_unsigned r
        else if decide (c = "+"%char) then py_unsigned r
        else py_unsigned (String c r)
    | EmptyString => None
    end.

End Text.

(** ** Data model *)

(** Modelled from the spec: the numbers held by [Score] and [Certainty]
    ("nullable decimal"); the schema of [AllCars] is not part of the
    repository.  A decimal is the exact number [unscaled / 10 ^ scale];
    the binary representation of SQLite's REAL storage is left out. *)
Record decimal := Dec { unscaled : Z; scale : nat }.

Global Instance decimal_eq_dec : EqDecision decimal.
Proof. solve_decision. Defined.

(** Modelled from the spec: a VehicleRecord, one row of [AllCars], whose
    schema is not part of the repository.  [ModelYear] is a text that may
    be absent, [Make] and [Model] are texts, [Score] and [Certainty] are
    decimals that may be absent.  [None] is SQL NULL. *)
Record VehicleRecord := Car {
  ModelYear : option string;
  Make : string;
  Model : string;
  Score : option decimal;
  Certainty : option decimal
}.

Global Instance VehicleRecord_eq_dec : EqDecision VehicleRecord.
Proof. solve_decision. Defined.

(** ** SQL expressions *)

Module Sql.

(** Three-valued logic: [None] is the unknown truth value. *)
Definition tri := option bool.

Definition and3 (a b : tri) : tri :=
  match a, b with
  | Some false, _ | _, Some false => Some false
  | Some true, Some true => Some true
  | _, _ => None
  end.

Definition is_not_null {A} (x : option A) : tri := Some (bool_decide (is_Some x)).

(** [X = Y] and [X <> Y] are NULL as soon as one side is. *)
Definition eq3 {A} `{EqDecision A} (x y : option A) : tri :=
  match x, y with
  | Some a, Some b => Some (bool_decide (a = b))
  | _, _ => None
  end.

Definition ne3 {A} `{EqDecision A} (x y : option A) : tri := negb <$> eq3 x y.

(** A WHERE clause keeps a row exactly when its condition is true. *)
Definition holds (c : tri) : Prop := c = Some true.

Global Instance holds_dec c : Decision (holds c).
Proof. unfold holds. apply _. Defined.

Definition TRIM (x : option string) : option string := Text.trim <$> x.

Definition CAST_INTEGER (x : option string) : option Z := Text.cast_integer <$> x.

(** SQLite's [ROUND(X, 1)] on an exact decimal: the nearest number with
    one decimal digit, a tie going away from zero.  The result is a REAL
    also when [X] is an integer. *)
Definition round1 (d : decimal) : decimal :=
  match scale d with
  | O => Dec (10 * unscaled d) 1
  | S k =>
      let p := 10 ^ Z.of_nat k in
      Dec (Z.sgn (unscaled d) * ((2 * Z.abs (unscaled d) + p) / (2 * p))) 1
  end.

Definition ROUND1 (x : option decimal) : option decimal := round1 <$> x.

(** Ordering of integer results: NULL sorts before every integer. *)
Definition int_le (a b : option Z) : Prop :=
  match a, b with
  | None, _ => True
  | Some _, None => False
  | Some x, Some y => x <= y
  end.

Global Instance int_le_dec : RelDecision int_le.
Proof. intros [x|] [y|]; simpl; apply _. Defined.

(** [DISTINCT] keeps one copy of each value. *)
Definition DISTINCT {A} `{EqDecision A} (l : list A) : list A := remove_dups l.

(** [ORDER BY Y DESC] over integers, [ORDER BY text] in the BINARY
    collation (byte-wise comparison). *)
Definition ORDER_BY_DESC (l : list (option Z)) : list (option Z) :=
  merge_sort (flip int_le) l.

Definition ORDER_BY_TEXT (l : list string) : list string :=
  merge_sort String.le l.

(** [LIMIT 1] followed by [fetchone()]. *)
Definition LIMIT1 {A} (l : list A) : option A := head l.

(** The row is gradeable: [Score IS NOT NULL AND Certainty IS NOT NULL]. *)
Definition gradeable (r : VehicleRecord) : tri :=
  and3 (is_not_null (Score r)) (is_not_null (Certainty r)).

(** [CAST(TRIM(ModelYear) AS INTEGER) = ?] *)
Definition year_is (y : Z) (r : VehicleRecord) : tri :=
  eq3 (CAST_INTEGER (TRIM (ModelYear r))) (Some y).

(** The query of [years()]. *)
Definition where_years (r : VehicleRecord) : tri :=
  and3 (and3 (gradeable r) (is_not_null (ModelYear r)))
       (ne3 (TRIM (ModelYear r)) (Some EmptyString)).

Definition select_years (rows : list VehicleRecord) : list (option Z) :=
  ORDER_BY_DESC
    (DISTINCT ((fun r => CAST_INTEGER (TRIM (ModelYear r)))
                 <$> filter (fun r => holds (where_years r)) rows)).

(** The query of [makes()]. *)
Definition where_makes (y : Z) (r : VehicleRecord) : tri :=
  and3 (year_is y r) (gradeable r).

Definition select_makes (y : Z) (rows : list VehicleRecord) : list string :=
  ORDER_BY_TEXT (DISTINCT (Make <$> filter (fun r => holds (where_makes y r)) rows)).

(** The query of [models()]. *)
Definition where_models (y : Z) (mk : string) (r : VehicleRecord) : tri :=
  and3 (and3 (year_is y r) (eq3 (Some (Make r)) (Some mk))) (gradeable r).

Definition select_models (y : Z) (mk : string) (rows : list VehicleRecord)
  : list string :=
  ORDER_BY_TEXT
    (DISTINCT (Model <$> filter (fun r => holds (where_models y mk r)) rows)).

(** The query of [grade()]: the columns [ScoreRounded] and
    [CertaintyRounded] of the first row that matches, in table order. *)
Definition where_grade (y : Z) (mk mo : string) (r : VehicleRecord) : tri :=
  and3 (and3 (and3 (year_is y r) (eq3 (Some (Make r)) (Some mk)))
             (eq3 (Some (Model r)) (Some mo)))
       (gradeable r).

Definition select_grade (y : Z) (mk mo : string) (rows : list VehicleRecord)
  : option (option decimal * option decimal) :=
  LIMIT1 ((fun r => (ROUND1 (Score r), ROUND1 (Certainty r)))
            <$> filter (fun r => holds (where_grade y mk mo r)) rows).

End Sql.

(** ** JSON values and responses *)

#[warnings="-register-all"]
Inductive Json :=
| JNull
| JInt (n : Z)
| JFloat (x : decimal)
| JStr (s : string)
| JArr (items : list Json)
| JObj (fields : list (string * Json)).

(** A view's return value: the body built by [jsonify] and the status. *)
Record Response := Resp { body : Json; status : Z }.

(** [jsonify(x)] alone answers with status 200. *)
Definition ok (j : Json) : Response := Resp j 200.

(** Field access on a JSON object. *)
Fixpoint assoc (k : string) (fs : list (string * Json)) : option Json :=
  match fs with
  | [] => None
  | (k', v) :: fs' => if decide (k' = k) then Some v else assoc k fs'
  end.

Definition field (k : string) (j : Json) : option Json :=
  match j with
  | JObj fs => assoc k fs
  | _ => None
  end.

(** ** The world of a request *)

(** The four statements the views send, with their bound parameters
    (Python integers are unbounded). *)
Inductive Query :=
| QYears
| QMakes (year : Z)
| QModels (year : Z) (make : string)
| QGrade (year : Z) (make model : string).

Inductive Event :=
| EvConnect
| EvExecute (q : Query)
| EvPrint (line : string)
| EvClose.

(** The database file behind [DB_PATH], opened with [mode=ro]. *)
Inductive DataSource :=
| Unopenable (cause : string)    (* [sqlite3.connect] raises *)
| Unqueryable (cause : string)   (* the file opens, statements on [AllCars] raise *)
| AllCars (rows : list VehicleRecord).

Record World := Mk_World {
  source : DataSource;
  g_db : bool;               (* ["db" in g] *)
  trace : list Event
}.

Definition emit (e : Event) (w : World) : World :=
  Mk_World (source w) (g_db w) (trace w ++ [e]).

Definition set_g_db (b : bool) (w : World) : World :=
  Mk_World (source w) b (trace w).

(** ** Computations that read and write the world and may raise

    An exception is represented by its message, [str(e)]. *)

Definition Flask (A : Type) : Type := World -> (string + A) * World.

Definition ret {A} (x : A) : Flask A := fun w => (inr x, w).

Definition bind {A B} (m : Flask A) (k : A -> Flask B) : Flask B :=
  fun w =>
    match m w with
    | (inr x, w') => k x w'
    | (inl e, w') => (inl e, w')
    end.

Global Instance Flask_ret : MRet Flask := @ret.
Global Instance Flask_bind : MBind Flask := fun A B k m => bind m k.

(** [try: m  except Exception as e: h e] *)
Definition try_except {A} (m : Flask A) (h : string -> Flask A) : Flask A :=
  fun w =>
    match m w with
    | (inr x, w') => (inr x, w')
    | (inl e, w') => h e w'
    end.

Definition tell (e : Event) : Flask unit := fun w => (inr tt, emit e w).

(** [print(label, e)] writes the label, a space and [str(e)]. *)
Definition print (label e : string) : Flask unit :=
  tell (EvPrint (label +:+ " " +:+ e)).

(** [get_db()]: connect once per request and keep the handle in [g]. *)
Definition get_db : Flask unit :=
  fun w =>
    if g_db w then (inr tt, w)
    else
      match source w with
      | Unopenable cause => (inl cause, emit EvConnect w)
      | _ => (inr tt, set_g_db true (emit EvConnect w))
      end.

(** [close_db]: the teardown pops the handle and closes it. *)
Definition close_db (w : World) : World :=
  if g_db w then set_g_db false (emit EvClose w) else w.

(** The integers among a statement's parameters.  Binding an integer
    outside the signed 64-bit range raises [OverflowError]. *)
Definition bound_ints (q : Query) : list Z :=
  match q with
  | QYears => []
  | QMakes y | QModels y _ | QGrade y _ _ => [y]
  end.

Definition bindable (q : Query) : Prop := Forall Text.fits_int64 (bound_ints q).

Global Instance bindable_dec q : Decision (bindable q).
Proof. unfold bindable, Text.fits_int64. apply _. Defined.

Definition overflow_message : string :=
  "Python int too large to convert to SQLite INTEGER".

(** [db.execute(q, params)] followed by [fetchall()] or [fetchone()];
    [eval] is the meaning of the statement on the rows of [AllCars]. *)
Definition run_statement {A} (q : Query) (eval : list VehicleRecord -> A)
  : Flask A :=
  fun w =>
    match source w with
    | AllCars rows =>
        if decide (bindable q) then (inr (eval rows), w)
        else (inl overflow_message, w)
    | Unqueryable cause | Unopenable cause => (inl cause, w)
    end.

Definition db_execute {A} (q : Query) (eval : list VehicleRecord -> A)
  : Flask A :=
  tell (EvExecute q);; run_statement q eval.

(** ** Request parameters *)

(** [request.args.get(k, type=int)]: [None] when the key is missing or the
    conversion raises [ValueError]. *)
Definition arg_int (args : gmap string string) (k : string) : option Z :=
  args !! k ≫= Text.py_int.

(** [request.args.get(k, type=str)] *)
Definition arg_str (args : gmap string string) (k : string) : option string :=
  args !! k.

(** A text parameter that passes the test [not x] is dropped: [Some s]
    only for a present, non-empty [s]. *)
Definition truthy (x : option string) : option string :=
  match x with
  | Some s => if decide (s = EmptyString) then None else Some s
  | None => None
  end.

(** ** The views *)

Definition empty_list : Json := JArr [].

Definition error (msg : string) : Json := JObj [("error"%string, JStr msg)].

(** [float(x) if x is not None else None] *)
Definition float_or_none (x : option decimal) : Json :=
  match x with
  | Some d => JFloat d
  | None => JNull
  end.

Definition years : Flask Response :=
  try_except
    (get_db;;
     rows ← db_execute QYears Sql.select_years;
     mret (ok (JArr (JInt <$> omap id rows))))
    (fun e => print "Error /api/years:" e;; mret (Resp empty_list 500)).

Definition makes (args : gmap string string) : Flask Response :=
  match arg_int args "year" with
  | None => mret (ok empty_list)
  | Some year =>
      try_except
        (get_db;;
         rows ← db_execute (QMakes year) (Sql.select_makes year);
         mret (ok (JArr (JStr <$> rows))))
        (fun e => print "Error /api/makes:" e;; mret (Resp empty_list 500))
  end.

Definition models (args : gmap string string) : Flask Response :=
  match arg_int args "year", truthy (arg_str args "make") with
  | Some year, Some make =>
      try_except
        (get_db;;
         rows ← db_execute (QModels year make) (Sql.select_models year make);
         mret (ok (JArr (JStr <$> rows))))
        (fun e => print "Error /api/models:" e;; mret (Resp empty_list 500))
  | _, _ => mret (ok empty_list)
  end.

Definition grade_body (year : Z) (make model : string)
    (score certainty : option decimal) : Json :=
  JObj [("year"%string, JInt year);
        ("make"%string, JStr make);
        ("model"%string, JStr model);
        ("score"%string, float_or_none score);
        ("certainty"%string, float_or_none certainty)].

Definition grade (args : gmap string string) : Flask Response :=
  match arg_int args "year",
        truthy (arg_str args "make"), truthy (arg_str args "model") with
  | Some year, Some make, Some model =>
      try_except
        (get_db;;
         row ← db_execute (QGrade year make model)
                 (Sql.select_grade year make model);
         match row with
         | None => mret (Resp (error "Not found") 404)
         | Some (score_rounded, certainty_rounded) =>
             mret (ok (grade_body year make model
                         score_rounded certainty_rounded))
         end)
        (fun e => print "Error /api/grade:" e;; mret (Resp (error "Server error") 500))
  | _, _, _ => mret (Resp (error "Missing params") 400)
  end.

(** ** Serving a request *)

Inductive Endpoint := ApiYears | ApiMakes | ApiModels | ApiGrade.

Definition view (ep : Endpoint) (args : gmap string string) : Flask Response :=
  match ep with
  | ApiYears => years
  | ApiMakes => makes args
  | ApiModels => models args
  | ApiGrade => grade args
  end.

(** One request: a fresh application context (nothing in [g]), the view,
    then the teardown.  An exception that escapes a view would be
    answered by the framework's own 500 page. *)
Definition serve (ep : Endpoint) (args : gmap string string) (w : World)
  : Response * World :=
  match view ep args (set_g_db false w) with
  | (inr r, w') => (r, close_db w')
  | (inl _, w') => (Resp (JStr "Internal Server Error") 500, close_db w')
  end.

(** The response of a request. *)
Definition respond (ep : Endpoint) (args : gmap string string) (w : World)
  : Response := (serve ep args w).1.

Definition fresh (src : DataSource) : World := Mk_World src false [].

(** ** Vocabulary of the properties *)

(** A record is gradeable when both [Score] and [Certainty] are present. *)
Definition Gradeable (r : VehicleRecord) : Prop :=
  is_Some (Score r) /\ is_Some (Certainty r).

(** The year a stored text converts to: [CAST(TRIM(ModelYear) AS INTEGER)]. *)
Definition stored_year (r : VehicleRecord) : option Z :=
  Sql.CAST_INTEGER (Sql.TRIM (ModelYear r)).

(** The year text is present and not empty once trimmed. *)
Definition year_text_present (r : VehicleRecord) : Prop :=
  exists s, ModelYear r = Some s /\ Text.trim s <> EmptyString.

(** A gradeable record with the given year, make and model. *)
Definition Matches (y : Z) (mk mo : string) (r : VehicleRecord) : Prop :=
  Gradeable r /\ stored_year r = Some y /\ Make r = mk /\ Model r = mo.

(** Strict orders of the answers. *)
Definition strictly_descending (l : list Z) : Prop := StronglySorted Z.gt l.

Definition text_lt (s t : string) : Prop := String.ltb s t = true.

Definition strictly_ascending (l : list string) : Prop := StronglySorted text_lt l.

(** The distance between a decimal and a one-digit decimal is at most
    half a unit of the last digit kept: [|m/10 - u/10^k| <= 1/20]. *)
Definition within_half_tenth (d r : decimal) : Prop :=
  scale r = 1%nat /\
  2 * Z.abs (unscaled r * 10 ^ Z.of_nat (scale d) - 10 * unscaled d)
    <= 10 ^ Z.of_nat (scale d).

(** What a view leaves behind when it answers without reaching for the
    data source: no connection, no statement, nothing printed. *)
Definition untouched (w : World) (w' : World) : Prop :=
  source w' = source w /\ trace w' = trace w.

(** Data access fails for a statement: the file does not open, the table
    cannot be queried, or a parameter cannot be bound. *)
Definition access_fails (src : DataSource) (q : Query) : Prop :=
  match src with
  | AllCars _ => ~ bindable q
  | Unopenable _ | Unqueryable _ => True
  end.

(** ** Year text as the specification describes it

    Follows the specification's words: a stored year is valid when, once
    trimmed, it is an integer numeral; absent, blank and non-numeric
    texts are the malformed ones. *)
Module Spec.

Fixpoint all_digits (s : string) : bool :=
  match s with
  | String c s' => bool_decide (is_Some (Text.digit c)) && all_digits s'
  | EmptyString => true
  end.

Definition numeral (s : string) : bool :=
  match s with
  | String c r =>
      if decide (c = "-"%char \/ c = "+"%char)
      then bool_decide (r <> EmptyString) && all_digits r
      else all_digits s
  | EmptyString => false
  end.

Definition malformed_year (x : option string) : Prop :=
  match x with
  | None => True
  | Some s => numeral (Text.trim s) = false
  end.

(** The integer a numeral denotes, digit by digit with its weight. *)
Fixpoint digits_value (s : string) : Z :=
  match s with
  | String c s' =>
      default 0 (Text.digit c) * 10 ^ Z.of_nat (String.length s')
      + digits_value s'
  | EmptyString => 0
  end.

Definition value (s : string) : Z :=
  match s with
  | String c r =>
      if decide (c = "-"%char) then - digits_value r
      else if decide (c = "+"%char) then digits_value r
      else digits_value s
  | EmptyString => 0
  end.

(** The year a stored text parses to: the text is trimmed and converted
    to an integer; an absent, blank or non-numeric text has no year. *)
Definition parsed_year (x : option string) : option Z :=
  match x with
  | Some s => if numeral (Text.trim s) then Some (value (Text.trim s)) else None
  | None => None
  end.

(** A year text that is absent, or a numeral of a signed 64-bit integer. *)
Definition year_text_ok (x : option string) : Prop :=
  match x with
  | Some s =>
      numeral (Text.trim s) = true /\ Text.fits_int64 (value (Text.trim s))
  | None => True
  end.

End Spec.

(** A table in which the year text of every gradeable record is absent
    or a numeral of a signed 64-bit integer. *)
Definition clean_years (rows : list VehicleRecord) : Prop :=
  forall r, r ∈ rows -> Gradeable r -> Spec.year_text_ok (ModelYear r).

(** A gradeable record with the given year, make and model, the year
    read as the specification reads it. *)
Definition SpecMatches (y : Z) (mk mo : string) (r : VehicleRecord) : Prop :=
  Gradeable r /\ Spec.parsed_year (ModelYear r) = Some y
  /\ Make r = mk /\ Model r = mo.

(** ** Sample data *)

Module Sample.

Definition civic : VehicleRecord :=
  Car (Some " 2018 "%string) "Honda" "Civic" (Some (Dec 783 2)) (Some (Dec 426 2)).

Definition unknown_year : VehicleRecord :=
  Car (Some "unknown"%string) "Honda" "Civic" (Some (Dec 783 2)) (Some (Dec 426 2)).

Definition blank_year : VehicleRecord :=
  Car (Some "   "%string) "Kia" "Rio" (Some (Dec 5 0)) (Some (Dec 25 2)).

Definition no_year : VehicleRecord :=
  Car None "Kia" "Rio" (Some (Dec 5 0)) (Some (Dec 25 2)).

Definition ungraded : VehicleRecord :=
  Car (Some "2018"%string) "Acura" "TLX" None (Some (Dec 30 1)).

Definition accord : VehicleRecord :=
  Car (Some "2018"%string) "Honda" "Accord" (Some (Dec 8 0)) (Some (Dec 35 1)).

Definition spaced_make : VehicleRecord :=
  Car (Some "2018"%string) " " "Civic" (Some (Dec 783 2)) (Some (Dec 426 2)).

Definition table : list VehicleRecord :=
  [civic; ungraded; accord; no_year; civic].

Definition request (year make model : string) : gmap string string :=
  {[ "year"%string := year; "make"%string := make; "model"%string := model ]}.

Definition year_only (year : string) : gmap string string :=
  {[ "year"%string := year ]}.

Definition year_make (year make : string) : gmap string string :=
  {[ "year"%string := year; "make"%string := make ]}.

Definition year_empty_make (year : string) : gmap string string :=
  {[ "year"%string := year; "make"%string := EmptyString ]}.

End Sample.

(** The world after a request that connected and sent one statement. *)
Definition after_query (src : DataSource) (tr : list Event) (q : Query) : World :=
  Mk_World src false (((tr ++ [EvConnect]) ++ [EvExecute q]) ++ [EvClose]).

(** The two answers of [grade()] to the row it fetched. *)
Definition grade_response (y : Z) (mk mo : string)
    (row : option (option decimal * option decimal)) : Response :=
  match row with
  | None => Resp (error "Not found") 404
  | Some (s, c) => ok (grade_body y mk mo s c)
  end.

(** The three parameters of [/api/grade] are present, the year parses
    and the two texts are not empty. *)
Definition well_formed (args : gmap string string) (y : Z) (mk mo : string)
  : Prop :=
  arg_int args "year" = Some y
  /\ arg_str args "make" = Some mk /\ mk <> EmptyString
  /\ arg_str args "model" = Some mo /\ mo <> EmptyString.

(** One of the three parameters is missing or empty; a year that does not
    parse counts as missing. *)
Definition missing_params (args : gmap string string) : Prop :=
  arg_int args "year" = None
  \/ arg_str args "make" = None \/ arg_str args "make" = Some EmptyString
  \/ arg_str args "model" = None \/ arg_str args "model" = Some EmptyString.

(** The body of a successful [/api/grade] answer with both numbers present. *)
Definition grade_json (y : Z) (mk mo : string) (score certainty : decimal)
  : Json :=
  JObj [("year"%string, JInt y);
        ("make"%string, JStr mk);
        ("model"%string, JStr mo);
        ("score"%string, JFloat score);
        ("certainty"%string, JFloat certainty)].

(** A computation that leaves the data source as it found it. *)
Definition read_only {A} (m : Flask A) : Prop :=
  forall w, source (m w).2 = source w.

(** The response as a function of the request and of the data source
    alone; [respond_answer] shows that the views compute it. *)
Definition query {A} (src : DataSource) (q : Query)
    (eval : list VehicleRecord -> A) (k : A -> Response) (fallback : Response)
  : Response :=
  match src with
  | AllCars rows => if decide (bindable q) then k (eval rows) else fallback
  | Unopenable _ | Unqueryable _ => fallback
  end.

Definition answer (ep : Endpoint) (args : gmap string string)
    (src : DataSource) : Response :=
  match ep with
  | ApiYears =>
      query src QYears Sql.select_years
        (fun rows => ok (JArr (JInt <$> omap id rows))) (Resp empty_list 500)
  | ApiMakes =>
      match arg_int args "year" with
      | Some y =>
          query src (QMakes y) (Sql.select_makes y)
            (fun rows => ok (JArr (JStr <$> rows))) (Resp empty_list 500)
      | None => ok empty_list
      end
  | ApiModels =>
      match arg_int args "year", truthy (arg_str args "make") with
      | Some y, Some mk =>
          query src (QModels y mk) (Sql.select_models y mk)
            (fun rows => ok (JArr (JStr <$> rows))) (Resp empty_list 500)
      | _, _ => ok empty_list
      end
  | ApiGrade =>
      match arg_int args "year",
            truthy (arg_str args "make"), truthy (arg_str args "model") with
      | Some y, Some mk, Some mo =>
          query src (QGrade y mk mo) (Sql.select_grade y mk mo)
            (grade_response y mk mo) (Resp (error "Server error") 500)
      | _, _, _ => Resp (error "Missing params") 400
      end
  end.

(** ** The connection URI of [get_db] *)

Module Uri.

Definition backslash : ascii := "092"%char.
Definition slash : ascii := "/"%char.

(** [DB_PATH.replace("\\", "/")] *)
Fixpoint replace_backslash (s : string) : string :=
  match s with
  | String c s' =>
      String (if decide (c = backslash) then slash else c) (replace_backslash s')
  | EmptyString => EmptyString
  end.

(** [f"file:{db_uri_path}?mode=ro"] *)
Definition db_uri (db_path : string) : string :=
  "file:" +:+ replace_backslash db_path +:+ "?mode=ro".

(** The bytes of a text. *)
Fixpoint bytes (s : string) : list ascii :=
  match s with
  | String c s' => c :: bytes s'
  | EmptyString => []
  end.

End Uri.

(** ** The diagnostics view *)

Module Health.

(** The dictionary [health()] hands to [jsonify] on success. *)
Record Report := Mk_Report {
  db_path : string;
  tables : list string;
  allcars_exists : bool;
  allcars_count : Z;
  with_score_certainty : Z
}.

(** The two bodies of [/api/health]. *)
Inductive Payload :=
| Healthy (r : Report)
| Failed (error : string) (db_path : string).

Record Reply := Mk_Reply { payload : Payload; code : Z }.

(** [SELECT name FROM sqlite_master WHERE type='table'] on an open
    handle.  The catalogue of the file either lists table names or
    cannot be read (the file is not a database): the statement then
    raises with that cause. *)
Definition read_master (catalogue : string + list string)
  : Flask (list string) :=
  fun w =>
    match catalogue with
    | inr names => (inr names, w)
    | inl cause => (inl cause, w)
    end.

(** A statement on [AllCars] without parameters. *)
Definition fetch_allcars {A} (eval : list VehicleRecord -> A) : Flask A :=
  fun w =>
    match source w with
    | AllCars rows => (inr (eval rows), w)
    | Unqueryable cause | Unopenable cause => (inl cause, w)
    end.

(** [SELECT COUNT( * ) AS c FROM AllCars] *)
Definition count_all (rows : list VehicleRecord) : Z :=
  Z.of_nat (List.length rows).

(** [SELECT COUNT( * ) AS c FROM AllCars
     WHERE Score IS NOT NULL AND Certainty IS NOT NULL] *)
Definition count_ready (rows : list VehicleRecord) : Z :=
  Z.of_nat (List.length (filter (fun r => Sql.holds (Sql.gradeable r)) rows)).

(** [health()], for the configured [DB_PATH] and the catalogue of the
    file.  Its statements are not recorded in the trace. *)
Definition view (DB_PATH : string) (catalogue : string + list string)
  : Flask Reply :=
  try_except
    (get_db;;
     tables ← read_master catalogue;
     let exists_ := bool_decide ("AllCars"%string ∈ tables) in
     count_all ← (if exists_ then fetch_allcars count_all else mret 0);
     count_ready ← (if exists_ then fetch_allcars count_ready else mret 0);
     mret (Mk_Reply (Healthy (Mk_Report DB_PATH tables exists_
                                count_all count_ready)) 200))
    (fun e => mret (Mk_Reply (Failed e DB_PATH) 500)).

(** One request to [/api/health]: fresh context, view, teardown. *)
Definition request (DB_PATH : string) (catalogue : string + list string)
    (w : World) : Reply * World :=
  match view DB_PATH catalogue (set_g_db false w) with
  | (inr r, w') => (r, close_db w')
  | (inl e, w') => (Mk_Reply (Failed e DB_PATH) 500, close_db w')
  end.

(** The view and the request on a file whose catalogue lists [names]. *)
Definition health (DB_PATH : string) (names : list string) : Flask Reply :=
  view DB_PATH (inr names).

Definition serve (DB_PATH : string) (names : list string) (w : World)
  : Reply * World :=
  request DB_PATH (inr names) w.

End Health.

(** ** Vocabulary of the further properties *)

(** The items of a JSON array. *)
Definition items_of (j : Json) : list Json :=
  match j with
  | JArr l => l
  | _ => []
  end.

(** The shapes of what one request to a data endpoint adds to the trace. *)
Definition request_events (src : DataSource) (evs : list Event) : Prop :=
  evs = []
  \/ (exists cause line, src = Unopenable cause /\ evs = [EvConnect; EvPrint line])
  \/ (exists q, evs = [EvConnect; EvExecute q; EvClose])
  \/ (exists q line, evs = [EvConnect; EvExecute q; EvPrint line; EvClose]).

(** ** The views over a handle that could write

    A second, finer embedding of the four data views, in which the
    handle kept in [g] is the URI it was opened with and [db.execute]
    is one operation for every statement: a statement that writes does
    change the table when the file was opened for writing.  What the
    views leave untouched is then a fact about the statements they send
    and the URI they connect to. *)

Module Db.

(** The statements a handle accepts: the four SELECTs of the views, and
    two that write. *)
Inductive Statement :=
| SELECT (q : Query)
| INSERT (r : VehicleRecord)    (* INSERT INTO AllCars VALUES (...) *)
| DELETE.                       (* DELETE FROM AllCars *)

Inductive Event :=
| Connected (uri : string)
| Executed (s : Statement)
| Printed (line : string)
| Closed.

Record World := Mk_World {
  data : DataSource;
  handle : option string;       (* [g.db], opened with this URI *)
  log : list Event
}.

Definition M (A : Type) : Type := World -> (string + A) * World.

Global Instance M_ret : MRet M := fun A x w => (inr x, w).

Global Instance M_bind : MBind M :=
  fun A B k m w =>
    match m w with
    | (inr x, w') => k x w'
    | (inl e, w') => (inl e, w')
    end.

Definition try_except {A} (m : M A) (h : string -> M A) : M A :=
  fun w =>
    match m w with
    | (inr x, w') => (inr x, w')
    | (inl e, w') => h e w'
    end.

Definition tell (e : Event) : M unit :=
  fun w => (inr tt, Mk_World (data w) (handle w) (log w ++ [e])).

Definition print (label e : string) : M unit :=
  tell (Printed (label +:+ " " +:+ e)).

(** [sqlite3.connect(uri, uri=True)] *)
Definition connect (uri : string) : M string :=
  fun w =>
    match data w with
    | Unopenable cause =>
        (inl cause, Mk_World (data w) (handle w) (log w ++ [Connected uri]))
    | _ => (inr uri, Mk_World (data w) (Some uri) (log w ++ [Connected uri]))
    end.

Definition readonly_message : string := "attempt to write a readonly database".

Section Library.

(** Whether SQLite opens the file a URI names for writing: the library's
    reading of the URI and of its [mode] parameter. *)
Variable writable : string -> bool.

(** The configured path of the database file. *)
Variable DB_PATH : string.

(** What a statement does to the table behind a handle: nothing for a
    SELECT; a write is carried out on a handle opened for writing and
    refused on any other. *)
Definition effect (uri : string) (s : Statement) (rows : list VehicleRecord)
  : string + list VehicleRecord :=
  match s with
  | SELECT q => if decide (bindable q) then inr rows else inl overflow_message
  | INSERT r => if writable uri then inr (rows ++ [r]) else inl readonly_message
  | DELETE => if writable uri then inr [] else inl readonly_message
  end.

(** [db.execute(s, params)] and the fetch that follows; [fetch] reads
    the answer off the rows the statement ran on. *)
Definition execute {A} (db : string) (s : Statement)
    (fetch : list VehicleRecord -> A) : M A :=
  tell (Executed s);;
  ((fun w =>
      match data w with
      | AllCars rows =>
          match effect db s rows with
          | inr rows' =>
              (inr (fetch rows), Mk_World (AllCars rows') (handle w) (log w))
          | inl e => (inl e, w)
          end
      | Unqueryable cause | Unopenable cause => (inl cause, w)
      end) : M A).

(** [get_db()] *)
Definition get_db : M string :=
  fun w =>
    match handle w with
    | Some db => (inr db, w)
    | None => connect (Uri.db_uri DB_PATH) w
    end.

(** [close_db] *)
Definition close_db (w : World) : World :=
  match handle w with
  | Some _ => Mk_World (data w) None (log w ++ [Closed])
  | None => w
  end.

Definition years : M Response :=
  try_except
    (db ← get_db;
     rows ← execute db (SELECT QYears) Sql.select_years;
     mret (ok (JArr (JInt <$> omap id rows))))
    (fun e => print "Error /api/years:" e;; mret (Resp empty_list 500)).

Definition makes (args : gmap string string) : M Response :=
  match arg_int args "year" with
  | None => mret (ok empty_list)
  | Some year =>
      try_except
        (db ← get_db;
         rows ← execute db (SELECT (QMakes year)) (Sql.select_makes year);
         mret (ok (JArr (JStr <$> rows))))
        (fun e => print "Error /api/makes:" e;; mret (Resp empty_list 500))
  end.

Definition models (args : gmap string string) : M Response :=
  match arg_int args "year", truthy (arg_str args "make") with
  | Some year, Some make =>
      try_except
        (db ← get_db;
         rows ← execute db (SELECT (QModels year make))
                  (Sql.select_models year make);
         mret (ok (JArr (JStr <$> rows))))
        (fun e => print "Error /api/models:" e;; mret (Resp empty_list 500))
  | _, _ => mret (ok empty_list)
  end.

Definition grade (args : gmap string string) : M Response :=
  match arg_int args "year",
        truthy (arg_str args "make"), truthy (arg_str args "model") with
  | Some year, Some make, Some model =>
      try_except
        (db ← get_db;
         row ← execute db (SELECT (QGrade year make model))
                 (Sql.select_grade year make model);
         match row with
         | None => mret (Resp (error "Not found") 404)
         | Some (score_rounded, certainty_rounded) =>
             mret (ok (grade_body year make model
                         score_rounded certainty_rounded))
         end)
        (fun e => print "Error /api/grade:" e;; mret (Resp (error "Server error") 500))
  | _, _, _ => mret (Resp (error "Missing params") 400)
  end.

Definition view (ep : Endpoint) (args : gmap string string) : M Response :=
  match ep with
  | ApiYears => years
  | ApiMakes => makes args
  | ApiModels => models args
  | ApiGrade => grade args
  end.

(** One request: nothing in [g], the view, the teardown. *)
Definition serve (ep : Endpoint) (args : gmap string string) (w : World)
  : Response * World :=
  match view ep args (Mk_World (data w) None (log w)) with
  | (inr r, w') => (r, close_db w')
  | (inl _, w') => (Resp (JStr "Internal Server Error") 500, close_db w')
  end.

Definition respond (ep : Endpoint) (args : gmap string string) (w : World)
  : Response := (serve ep args w).1.

(** A client that writes: it takes the handle of [get_db()] and sends
    the statement. *)
Definition send (s : Statement) : M unit :=
  db ← get_db; execute db s (fun _ => tt).

(** The events a data view may add to the log. *)
Definition reading (e : Event) : Prop :=
  e = Connected (Uri.db_uri DB_PATH)
  \/ (exists q, e = Executed (SELECT q))
  \/ (exists line, e = Printed line)
  \/ e = Closed.

End Library.

End Db.

(** * Properties *)

(** ** The text primitives on examples *)

Example trim_2018 : Text.trim " 2018 " = "2018"%string.
Proof. reflexivity. Qed.

Example cast_2018 : Text.cast_integer "2018" = 2018.
Proof. reflexivity. Qed.

Example cast_unknown : Text.cast_integer "unknown" = 0.
Proof. reflexivity. Qed.

Example cast_prefix : Text.cast_integer "2018 (est.)" = 2018.
Proof. reflexivity. Qed.

Example cast_huge : Text.cast_integer "99999999999999999999" = Text.INT64_MAX.
Proof. reflexivity. Qed.

Example py_int_2018 : Text.py_int " 2018 " = Some 2018.
Proof. reflexivity. Qed.

Example py_int_underscore : Text.py_int "2_018" = Some 2018.
Proof. reflexivity. Qed.

Example py_int_bad : Text.py_int "20x8" = None /\ Text.py_int EmptyString = None
                     /\ Text.py_int "2__0" = None /\ Text.py_int "-" = None.
Proof. repeat split; reflexivity. Qed.

(** ** Running the common shape of the views *)

Section Attempt.
Context {A : Type} (q : Query) (eval : list VehicleRecord -> A).
Context (k : A -> Flask Response) (label : string) (fallback : Response).

Let attempt : Flask Response :=
  try_except (get_db;; x ← db_execute q eval; k x)
             (fun e => print label e;; mret fallback).

Lemma attempt_table rows tr :
  bindable q ->
  attempt (Mk_World (AllCars rows) false tr)
  = try_except (k (eval rows)) (fun e => print label e;; mret fallback)
      (Mk_World (AllCars rows) true ((tr ++ [EvConnect]) ++ [EvExecute q])).
Proof.
  intros Hb. unfold attempt, try_except, db_execute, run_statement, get_db.
  unfold mbind, Flask_bind, bind, tell, emit, set_g_db. simpl.
  destruct (decide (bindable q)) as [_|Hn]; [|contradiction].
  reflexivity.
Qed.

Lemma attempt_overflow rows tr :
  ~ bindable q ->
  attempt (Mk_World (AllCars rows) false tr)
  = (inr fallback,
     Mk_World (AllCars rows) true
       (((tr ++ [EvConnect]) ++ [EvExecute q])
          ++ [EvPrint (label +:+ " " +:+ overflow_message)])).
Proof.
  intros Hb. unfold attempt, try_except, db_execute, run_statement, get_db.
  unfold mbind, Flask_bind, bind, tell, emit, set_g_db. simpl.
  destruct (decide (bindable q)) as [Hy|_]; [contradiction|]. reflexivity.
Qed.

Lemma attempt_unopenable cause tr :
  attempt (Mk_World (Unopenable cause) false tr)
  = (inr fallback,
     Mk_World (Unopenable cause) false
       ((tr ++ [EvConnect]) ++ [EvPrint (label +:+ " " +:+ cause)])).
Proof. reflexivity. Qed.

Lemma attempt_unqueryable cause tr :
  attempt (Mk_World (Unqueryable cause) false tr)
  = (inr fallback,
     Mk_World (Unqueryable cause) true
       (((tr ++ [EvConnect]) ++ [EvExecute q])
          ++ [EvPrint (label +:+ " " +:+ cause)])).
Proof. reflexivity. Qed.

(** Whatever the data source, a failed access is answered by the
    fallback response. *)
Lemma attempt_fails src tr :
  access_fails src q ->
  (attempt (Mk_World src false tr)).1 = inr fallback.
Proof.
  destruct src as [c|c|rows]; simpl; intros H.
  - reflexivity.
  - reflexivity.
  - rewrite attempt_overflow by exact H. reflexivity.
Qed.

End Attempt.

(** ** Three-valued conditions *)

Lemma holds_and3 a b : Sql.holds (Sql.and3 a b) <-> Sql.holds a /\ Sql.holds b.
Proof.
  unfold Sql.holds. destruct a as [[]|], b as [[]|]; simpl; split;
    try (intros [? ?]); try discriminate; try congruence; auto.
Qed.

Lemma holds_is_not_null {A} (x : option A) :
  Sql.holds (Sql.is_not_null x) <-> is_Some x.
Proof.
  unfold Sql.holds, Sql.is_not_null. split.
  - intros H. injection H as H. by apply bool_decide_eq_true in H.
  - intros H. f_equal. by apply bool_decide_eq_true.
Qed.

Lemma holds_eq3 {A} `{EqDecision A} (x : option A) (b : A) :
  Sql.holds (Sql.eq3 x (Some b)) <-> x = Some b.
Proof.
  unfold Sql.holds, Sql.eq3. destruct x as [a|]; split; try discriminate.
  - intros H. injection H as H. apply bool_decide_eq_true in H. by subst.
  - intros H. injection H as ->. f_equal. by apply bool_decide_eq_true.
Qed.

Lemma holds_ne3 {A} `{EqDecision A} (x : option A) (b : A) :
  Sql.holds (Sql.ne3 x (Some b)) <-> exists a, x = Some a /\ a <> b.
Proof.
  unfold Sql.holds, Sql.ne3, Sql.eq3. destruct x as [a|]; simpl; split.
  - intros H. injection H as H. apply negb_true_iff in H.
    apply bool_decide_eq_false in H. eauto.
  - intros (a' & Ha & Hne). injection Ha as <-. f_equal.
    apply negb_true_iff. by apply bool_decide_eq_false.
  - discriminate.
  - intros (a' & Ha & _). discriminate.
Qed.

Lemma holds_gradeable r : Sql.holds (Sql.gradeable r) <-> Gradeable r.
Proof.
  unfold Sql.gradeable, Gradeable.
  by rewrite holds_and3, !holds_is_not_null.
Qed.

Lemma holds_year_is y r : Sql.holds (Sql.year_is y r) <-> stored_year r = Some y.
Proof. unfold Sql.year_is, stored_year. apply holds_eq3. Qed.

Lemma holds_where_years r :
  Sql.holds (Sql.where_years r) <-> Gradeable r /\ year_text_present r.
Proof.
  unfold Sql.where_years, year_text_present.
  rewrite !holds_and3, holds_gradeable, holds_is_not_null, holds_ne3.
  unfold Sql.TRIM. destruct (ModelYear r) as [s|]; simpl; split.
  - intros [[Hg _] (a & Ha & Hne)]. injection Ha as <-. eauto.
  - intros [Hg (s' & Hs & Hne)]. injection Hs as <-. eauto.
  - intros [[_ [? ?]] _]. discriminate.
  - intros [_ (s' & Hs & _)]. discriminate.
Qed.

Lemma holds_where_makes y r :
  Sql.holds (Sql.where_makes y r) <-> Gradeable r /\ stored_year r = Some y.
Proof.
  unfold Sql.where_makes.
  rewrite holds_and3, holds_gradeable, holds_year_is. tauto.
Qed.

Lemma holds_where_models y mk r :
  Sql.holds (Sql.where_models y mk r)
  <-> Gradeable r /\ stored_year r = Some y /\ Make r = mk.
Proof.
  unfold Sql.where_models.
  rewrite !holds_and3, holds_gradeable, holds_year_is, holds_eq3.
  intuition congruence.
Qed.

Lemma holds_where_grade y mk mo r :
  Sql.holds (Sql.where_grade y mk mo r) <-> Matches y mk mo r.
Proof.
  unfold Sql.where_grade, Matches.
  rewrite !holds_and3, holds_gradeable, holds_year_is, !holds_eq3.
  intuition congruence.
Qed.

(** ** Conversion of stored years *)

Lemma clamp64_fits z : Text.fits_int64 (Text.clamp64 z).
Proof. unfold Text.fits_int64, Text.clamp64, Text.INT64_MIN, Text.INT64_MAX. lia. Qed.

Lemma cast_integer_fits s : Text.fits_int64 (Text.cast_integer s).
Proof.
  unfold Text.cast_integer. destruct (Text.skip_space s) as [|c r].
  - unfold Text.fits_int64, Text.INT64_MIN, Text.INT64_MAX. lia.
  - repeat case_decide; apply clamp64_fits.
Qed.

Lemma stored_year_fits r y : stored_year r = Some y -> Text.fits_int64 y.
Proof.
  unfold stored_year, Sql.CAST_INTEGER, Sql.TRIM.
  destruct (ModelYear r) as [s|]; simpl; [|discriminate].
  intros [= <-]. apply cast_integer_fits.
Qed.

Lemma bindable_QMakes y : bindable (QMakes y) <-> Text.fits_int64 y.
Proof. unfold bindable. simpl. by rewrite Forall_singleton. Qed.

Lemma bindable_QModels y mk : bindable (QModels y mk) <-> Text.fits_int64 y.
Proof. unfold bindable. simpl. by rewrite Forall_singleton. Qed.

Lemma bindable_QGrade y mk mo : bindable (QGrade y mk mo) <-> Text.fits_int64 y.
Proof. unfold bindable. simpl. by rewrite Forall_singleton. Qed.

(** ** Numerals are converted to the integer they denote *)

Lemma digits_prefix_all acc s :
  Spec.all_digits s = true ->
  Text.digits_prefix acc s
  = acc * 10 ^ Z.of_nat (String.length s) + Spec.digits_value s.
Proof.
  revert acc. induction s as [|c s IH]; intros acc Hall; simpl.
  - lia.
  - simpl in Hall. apply andb_true_iff in Hall as [Hc Hs].
    apply bool_decide_eq_true in Hc as [d Hd]. rewrite Hd. simpl.
    rewrite IH by done. rewrite Nat2Z.inj_succ, Z.pow_succ_r by lia. ring.
Qed.

Lemma digit_not_space c : is_Some (Text.digit c) -> Ascii.is_space c = false.
Proof.
  intros [d Hd]. destruct c as [[] [] [] [] [] [] [] []]; try reflexivity;
    discriminate.
Qed.

Lemma digit_not_sign c :
  is_Some (Text.digit c) -> c <> "-"%char /\ c <> "+"%char.
Proof. intros [d Hd]. split; intros ->; discriminate. Qed.

Lemma cast_integer_numeral t :
  Spec.numeral t = true -> Text.cast_integer t = Text.clamp64 (Spec.value t).
Proof.
  destruct t as [|c r]; [discriminate|]. unfold Spec.numeral, Spec.value.
  destruct (decide (c = "-"%char \/ c = "+"%char)) as [Hsign|Hsign].
  - intros Hr. apply andb_true_iff in Hr as [_ Hall].
    unfold Text.cast_integer.
    assert (Hsp : Text.skip_space (String c r) = String c r)
      by (destruct Hsign as [-> | ->]; reflexivity).
    rewrite Hsp. rewrite (digits_prefix_all 0 r Hall).
    destruct Hsign as [-> | ->]; simpl; f_equal; lia.
  - intros Hall. pose proof Hall as Hall'. simpl in Hall'.
    apply andb_true_iff in Hall' as [Hc _]. apply bool_decide_eq_true in Hc.
    destruct (digit_not_sign c Hc) as [Hm Hp].
    unfold Text.cast_integer. simpl Text.skip_space.
    rewrite (digit_not_space c Hc).
    rewrite !decide_False by done.
    rewrite (digits_prefix_all 0 _ Hall). f_equal; lia.
Qed.

(** A record whose year text is a numeral within the 64-bit range is
    stored under the integer the numeral denotes. *)
Lemma stored_year_numeral r s :
  ModelYear r = Some s -> Spec.numeral (Text.trim s) = true ->
  Text.fits_int64 (Spec.value (Text.trim s)) ->
  stored_year r = Some (Spec.value (Text.trim s)).
Proof.
  intros Hs Hnum Hfit. unfold stored_year, Sql.CAST_INTEGER, Sql.TRIM.
  rewrite Hs. simpl. f_equal. rewrite cast_integer_numeral by done.
  unfold Text.clamp64, Text.fits_int64 in *. lia.
Qed.

Example value_2018 : Spec.value "2018" = 2018 /\ Spec.value "-7" = -7.
Proof. split; reflexivity. Qed.

(** ** DISTINCT and ORDER BY *)

Lemma StronglySorted_refine {A} (R R' : relation A) (l : list A) :
  (forall x y, R x y -> x <> y -> R' x y) ->
  StronglySorted R l -> NoDup l -> StronglySorted R' l.
Proof.
  intros Href Hs. induction Hs as [|x l Hs IH Hall]; intros Hnd.
  - constructor.
  - apply NoDup_cons in Hnd as [Hx Hnd]. constructor; [by apply IH|].
    rewrite Forall_forall in Hall |- *. intros y Hy.
    apply Href; [by apply Hall|]. intros ->. by apply Hx.
Qed.

Lemma text_le_lt s t : (s ≤ t)%string -> s <> t -> text_lt s t.
Proof.
  unfold String.le, text_lt, String.leb, String.ltb. intros Hle Hne.
  destruct (String.compare s t) eqn:Hc; simpl in *; try done.
  by apply String.compare_eq_iff in Hc.
Qed.

Lemma elem_of_ORDER_BY_TEXT x l : x ∈ Sql.ORDER_BY_TEXT l <-> x ∈ l.
Proof. unfold Sql.ORDER_BY_TEXT. by rewrite merge_sort_Permutation. Qed.

Lemma ordered_distinct_text l :
  strictly_ascending (Sql.ORDER_BY_TEXT (Sql.DISTINCT l)).
Proof.
  unfold strictly_ascending, Sql.ORDER_BY_TEXT, Sql.DISTINCT.
  apply (StronglySorted_refine String.le); [apply text_le_lt| |].
  - apply StronglySorted_merge_sort; apply _.
  - rewrite merge_sort_Permutation. apply NoDup_remove_dups.
Qed.

Lemma elem_of_ordered_distinct_text x l :
  x ∈ Sql.ORDER_BY_TEXT (Sql.DISTINCT l) <-> x ∈ l.
Proof.
  rewrite elem_of_ORDER_BY_TEXT. unfold Sql.DISTINCT. apply elem_of_remove_dups.
Qed.

Global Instance int_le_trans : Transitive Sql.int_le.
Proof. intros [x|] [y|] [z|]; simpl; try done. lia. Qed.

Global Instance int_le_total : Total Sql.int_le.
Proof. intros [x|] [y|]; simpl; auto. lia. Qed.

Global Instance int_ge_total : Total (flip Sql.int_le).
Proof. intros x y. unfold flip. destruct (total Sql.int_le y x); auto. Qed.

Lemma strictly_descending_omap (l : list (option Z)) :
  StronglySorted (flip Sql.int_le) l -> NoDup l ->
  strictly_descending (omap id l).
Proof.
  unfold strictly_descending.
  intros Hs. induction Hs as [|x l Hs IH Hall]; intros Hnd; [constructor|].
  apply NoDup_cons in Hnd as [Hx Hnd]. destruct x as [x|]; simpl.
  - constructor; [by apply IH|].
    apply Forall_forall. intros y Hy.
    apply list_elem_of_omap in Hy as (oy & Hoy & Hid). simpl in Hid. subst oy.
    pose proof (proj1 (Forall_forall _ _) Hall _ Hoy) as Hle.
    unfold flip in Hle. simpl in Hle.
    assert (x <> y) by (intros ->; by apply Hx). lia.
  - by apply IH.
Qed.

Lemma ordered_distinct_years l :
  strictly_descending (omap id (Sql.ORDER_BY_DESC (Sql.DISTINCT l))).
Proof.
  unfold Sql.ORDER_BY_DESC, Sql.DISTINCT. apply strictly_descending_omap.
  - apply StronglySorted_merge_sort; apply _.
  - rewrite merge_sort_Permutation. apply NoDup_remove_dups.
Qed.

Lemma elem_of_ordered_distinct_years y l :
  y ∈ omap id (Sql.ORDER_BY_DESC (Sql.DISTINCT l)) <-> Some y ∈ l.
Proof.
  rewrite list_elem_of_omap. unfold Sql.ORDER_BY_DESC, Sql.DISTINCT. split.
  - intros (oy & Hin & Hid). simpl in Hid. subst oy.
    by rewrite merge_sort_Permutation, elem_of_remove_dups in Hin.
  - intros Hin. exists (Some y). split; [|done].
    by rewrite merge_sort_Permutation, elem_of_remove_dups.
Qed.

Lemma strictly_descending_NoDup l : strictly_descending l -> NoDup l.
Proof.
  unfold strictly_descending. induction 1 as [|x l Hs IH Hall]; constructor; [|done].
  intros Hin. rewrite Forall_forall in Hall. specialize (Hall _ Hin). lia.
Qed.

Lemma text_lt_irrefl s : ~ text_lt s s.
Proof.
  unfold text_lt, String.ltb. intros H.
  pose proof (String.compare_antisym s s) as Ha.
  destruct (String.compare s s); simpl in *; discriminate.
Qed.

Lemma strictly_ascending_NoDup l : strictly_ascending l -> NoDup l.
Proof.
  unfold strictly_ascending. induction 1 as [|x l Hs IH Hall]; constructor; [|done].
  intros Hin. rewrite Forall_forall in Hall. by apply (text_lt_irrefl x), Hall.
Qed.

(** ** What each request computes *)

Lemma serve_years_table args rows g tr :
  serve ApiYears args (Mk_World (AllCars rows) g tr)
  = (ok (JArr (JInt <$> omap id (Sql.select_years rows))),
     after_query (AllCars rows) tr QYears).
Proof.
  unfold serve, view, years, set_g_db. simpl source; simpl trace.
  rewrite attempt_table by constructor. reflexivity.
Qed.

Lemma serve_makes_no_year args w :
  arg_int args "year" = None ->
  serve ApiMakes args w = (ok empty_list, set_g_db false w).
Proof.
  intros Hy. unfold serve, view, makes. rewrite Hy.
  destruct w as [src g tr]. reflexivity.
Qed.

Lemma serve_makes_table args y rows g tr :
  arg_int args "year" = Some y -> Text.fits_int64 y ->
  serve ApiMakes args (Mk_World (AllCars rows) g tr)
  = (ok (JArr (JStr <$> Sql.select_makes y rows)),
     after_query (AllCars rows) tr (QMakes y)).
Proof.
  intros Hy Hfit. unfold serve, view, makes, set_g_db. rewrite Hy.
  simpl source; simpl trace.
  rewrite attempt_table by by apply bindable_QMakes. reflexivity.
Qed.

Lemma truthy_Some x s : truthy x = Some s <-> x = Some s /\ s <> EmptyString.
Proof.
  unfold truthy. destruct x as [t|]; [|split; [discriminate|intros [? _]; discriminate]].
  case_decide as Ht; split.
  - discriminate.
  - intros [[= ->] Hne]. contradiction.
  - intros [= ->]. done.
  - intros [[= ->] _]. done.
Qed.

Lemma truthy_None x : truthy x = None <-> x = None \/ x = Some EmptyString.
Proof.
  unfold truthy. destruct x as [t|]; [|split; auto].
  case_decide as Ht; split.
  - intros _. right. by subst.
  - done.
  - discriminate.
  - intros [H|[= ->]]; [discriminate|contradiction].
Qed.

Lemma serve_models_rejected args w :
  arg_int args "year" = None \/ truthy (arg_str args "make") = None ->
  serve ApiModels args w = (ok empty_list, set_g_db false w).
Proof.
  intros H. unfold serve, view, models. destruct w as [src g tr].
  destruct (arg_int args "year") as [y|], (truthy (arg_str args "make")) as [mk|];
    try reflexivity.
  destruct H; discriminate.
Qed.

Lemma serve_models_table args y mk rows g tr :
  arg_int args "year" = Some y -> truthy (arg_str args "make") = Some mk ->
  Text.fits_int64 y ->
  serve ApiModels args (Mk_World (AllCars rows) g tr)
  = (ok (JArr (JStr <$> Sql.select_models y mk rows)),
     after_query (AllCars rows) tr (QModels y mk)).
Proof.
  intros Hy Hmk Hfit. unfold serve, view, models, set_g_db. rewrite Hy, Hmk.
  simpl source; simpl trace.
  rewrite attempt_table by by apply bindable_QModels. reflexivity.
Qed.

Lemma serve_grade_rejected args w :
  arg_int args "year" = None \/ truthy (arg_str args "make") = None
  \/ truthy (arg_str args "model") = None ->
  serve ApiGrade args w = (Resp (error "Missing params") 400, set_g_db false w).
Proof.
  intros H. unfold serve, view, grade. destruct w as [src g tr].
  destruct (arg_int args "year") as [y|], (truthy (arg_str args "make")) as [mk|],
    (truthy (arg_str args "model")) as [mo|]; try reflexivity.
  destruct H as [H|[H|H]]; discriminate.
Qed.

Lemma serve_grade_table args y mk mo rows g tr :
  arg_int args "year" = Some y -> truthy (arg_str args "make") = Some mk ->
  truthy (arg_str args "model") = Some mo -> Text.fits_int64 y ->
  serve ApiGrade args (Mk_World (AllCars rows) g tr)
  = (grade_response y mk mo (Sql.select_grade y mk mo rows),
     after_query (AllCars rows) tr (QGrade y mk mo)).
Proof.
  intros Hy Hmk Hmo Hfit. unfold serve, view, grade, set_g_db.
  rewrite Hy, Hmk, Hmo. simpl source; simpl trace.
  rewrite attempt_table by by apply bindable_QGrade.
  destruct (Sql.select_grade y mk mo rows) as [[s c]|]; reflexivity.
Qed.

(** The response when the data cannot be read. *)
Lemma respond_view ep args w r :
  (view ep args (set_g_db false w)).1 = inr r -> respond ep args w = r.
Proof.
  unfold respond, serve. destruct (view ep args _) as [[e|r'] w']; simpl; congruence.
Qed.

Lemma respond_years_fails args w :
  access_fails (source w) QYears -> respond ApiYears args w = Resp empty_list 500.
Proof.
  intros H. apply respond_view. destruct w as [src g tr]. simpl in *.
  unfold years, set_g_db. simpl. by apply attempt_fails.
Qed.

Lemma respond_makes_fails args y w :
  arg_int args "year" = Some y -> access_fails (source w) (QMakes y) ->
  respond ApiMakes args w = Resp empty_list 500.
Proof.
  intros Hy H. apply respond_view. destruct w as [src g tr]. simpl in *.
  unfold makes, set_g_db. rewrite Hy. simpl. by apply attempt_fails.
Qed.

Lemma respond_models_fails args y mk w :
  arg_int args "year" = Some y -> truthy (arg_str args "make") = Some mk ->
  access_fails (source w) (QModels y mk) ->
  respond ApiModels args w = Resp empty_list 500.
Proof.
  intros Hy Hmk H. apply respond_view. destruct w as [src g tr]. simpl in *.
  unfold models, set_g_db. rewrite Hy, Hmk. simpl. by apply attempt_fails.
Qed.

Lemma respond_grade_fails args y mk mo w :
  arg_int args "year" = Some y -> truthy (arg_str args "make") = Some mk ->
  truthy (arg_str args "model") = Some mo ->
  access_fails (source w) (QGrade y mk mo) ->
  respond ApiGrade args w = Resp (error "Server error") 500.
Proof.
  intros Hy Hmk Hmo H. apply respond_view. destruct w as [src g tr]. simpl in *.
  unfold grade, set_g_db. rewrite Hy, Hmk, Hmo. simpl. by apply attempt_fails.
Qed.

(** ** The answers of the four statements *)

Lemma stored_year_text r y :
  year_text_present r /\ stored_year r = Some y
  <-> exists s, ModelYear r = Some s /\ Text.trim s <> EmptyString
                /\ Text.cast_integer (Text.trim s) = y.
Proof.
  unfold year_text_present, stored_year, Sql.CAST_INTEGER, Sql.TRIM. split.
  - intros [(s & Hs & Hne) Hy]. rewrite Hs in Hy. simpl in Hy.
    injection Hy as <-. eauto.
  - intros (s & Hs & Hne & <-). rewrite Hs. simpl. eauto.
Qed.

Lemma elem_of_select_years y rows :
  y ∈ omap id (Sql.select_years rows)
  <-> exists r, r ∈ rows /\ Gradeable r /\ year_text_present r
                /\ stored_year r = Some y.
Proof.
  unfold Sql.select_years. rewrite elem_of_ordered_distinct_years.
  rewrite list_elem_of_fmap. split.
  - intros (r & Hy & Hin). apply list_elem_of_filter in Hin as [Hw Hin].
    apply holds_where_years in Hw as [Hg Hp]. exists r. symmetry in Hy. auto.
  - intros (r & Hin & Hg & Hp & Hy). exists r. split; [done|].
    apply list_elem_of_filter. split; [|done]. by apply holds_where_years.
Qed.

Lemma elem_of_select_makes m y rows :
  m ∈ Sql.select_makes y rows
  <-> exists r, r ∈ rows /\ Gradeable r /\ stored_year r = Some y /\ Make r = m.
Proof.
  unfold Sql.select_makes. rewrite elem_of_ordered_distinct_text.
  rewrite list_elem_of_fmap. split.
  - intros (r & -> & Hin). apply list_elem_of_filter in Hin as [Hw Hin].
    apply holds_where_makes in Hw as [Hg Hy]. by exists r.
  - intros (r & Hin & Hg & Hy & <-). exists r. split; [done|].
    apply list_elem_of_filter. split; [|done]. by apply holds_where_makes.
Qed.

Lemma elem_of_select_models m y mk rows :
  m ∈ Sql.select_models y mk rows
  <-> exists r, r ∈ rows /\ Gradeable r /\ stored_year r = Some y
                /\ Make r = mk /\ Model r = m.
Proof.
  unfold Sql.select_models. rewrite elem_of_ordered_distinct_text.
  rewrite list_elem_of_fmap. split.
  - intros (r & -> & Hin). apply list_elem_of_filter in Hin as [Hw Hin].
    apply holds_where_models in Hw as (Hg & Hy & Hmk). by exists r.
  - intros (r & Hin & Hg & Hy & Hmk & <-). exists r. split; [done|].
    apply list_elem_of_filter. split; [|done]. by apply holds_where_models.
Qed.

(** The first element a filter keeps. *)
Lemma filter_first {A} (P : A -> Prop) `{forall x, Decision (P x)} (l : list A) :
  match filter P l with
  | [] => Forall (fun x => ~ P x) l
  | x :: _ => exists pre post, l = pre ++ x :: post /\ P x
                               /\ Forall (fun z => ~ P z) pre
  end.
Proof.
  induction l as [|a l IH]; simpl.
  - constructor.
  - rewrite filter_cons. destruct (decide (P a)) as [Ha|Ha].
    + exists [], l. split; [done|]. split; [done|constructor].
    + destruct (filter P l) as [|x rest].
      * by constructor.
      * destruct IH as (pre & post & -> & Hx & Hpre).
        exists (a :: pre), post. split; [done|]. split; [done|by constructor].
Qed.

Lemma select_grade_None y mk mo rows :
  Sql.select_grade y mk mo rows = None
  <-> forall r, r ∈ rows -> ~ Matches y mk mo r.
Proof.
  unfold Sql.select_grade, Sql.LIMIT1.
  pose proof (filter_first (fun r => Sql.holds (Sql.where_grade y mk mo r)) rows) as Hf.
  destruct (filter _ rows) as [|x rest]; simpl; split.
  - intros _ r Hin Hm. apply (proj2 (holds_where_grade _ _ _ _)) in Hm.
    exact (proj1 (Forall_forall _ _) Hf r Hin Hm).
  - done.
  - discriminate.
  - intros Hno. destruct Hf as (pre & post & -> & Hx & _).
    exfalso. apply (Hno x); [|exact (proj1 (holds_where_grade _ _ _ _) Hx)].
    apply elem_of_app. right. by left.
Qed.

Lemma select_grade_Some y mk mo rows s c :
  Sql.select_grade y mk mo rows = Some (s, c) ->
  exists pre r post,
    rows = pre ++ r :: post /\ Matches y mk mo r
    /\ Forall (fun z => ~ Matches y mk mo z) pre
    /\ s = Sql.ROUND1 (Score r) /\ c = Sql.ROUND1 (Certainty r).
Proof.
  unfold Sql.select_grade, Sql.LIMIT1.
  pose proof (filter_first (fun r => Sql.holds (Sql.where_grade y mk mo r)) rows) as Hf.
  destruct (filter _ rows) as [|x rest]; simpl; [discriminate|].
  intros [= <- <-]. destruct Hf as (pre & post & -> & Hx & Hpre).
  exists pre, x, post. split; [done|].
  split; [exact (proj1 (holds_where_grade _ _ _ _) Hx)|]. split; [|done].
  eapply Forall_impl; [exact Hpre|]. intros z Hz Hm. apply Hz.
  exact (proj2 (holds_where_grade _ _ _ _) Hm).
Qed.

(** ** Listing years *)

(** The year a clean text is stored under is the year it parses to. *)
Lemma stored_year_parsed r :
  Spec.year_text_ok (ModelYear r) ->
  stored_year r = Spec.parsed_year (ModelYear r).
Proof.
  unfold Spec.year_text_ok, Spec.parsed_year.
  destruct (ModelYear r) as [s|] eqn:Hs.
  - intros [Hnum Hfit]. rewrite Hnum. by apply stored_year_numeral.
  - intros _. unfold stored_year. by rewrite Hs.
Qed.

Lemma parsed_year_present r y :
  Spec.parsed_year (ModelYear r) = Some y -> year_text_present r.
Proof.
  unfold Spec.parsed_year, year_text_present.
  destruct (ModelYear r) as [s|]; [|discriminate].
  destruct (Spec.numeral (Text.trim s)) eqn:Hnum; [|discriminate].
  intros _. exists s. split; [done|]. intros Hblank.
  rewrite Hblank in Hnum. discriminate.
Qed.

(** On a clean table the statements select by the parsed year. *)
Lemma clean_stored_year rows r y :
  clean_years rows -> r ∈ rows -> Gradeable r ->
  stored_year r = Some y <-> Spec.parsed_year (ModelYear r) = Some y.
Proof. intros Hclean Hin Hg. by rewrite (stored_year_parsed r (Hclean r Hin Hg)). Qed.

Lemma clean_Matches rows r y mk mo :
  clean_years rows -> r ∈ rows ->
  Matches y mk mo r <-> SpecMatches y mk mo r.
Proof.
  intros Hclean Hin. unfold Matches, SpecMatches. split.
  - intros (Hg & Hy & Hmk & Hmo). split; [done|]. split; [|done].
    by apply (clean_stored_year rows).
  - intros (Hg & Hy & Hmk & Hmo). split; [done|]. split; [|done].
    by apply (clean_stored_year rows).
Qed.

(** C2 (not met by the code; the defect of C1).  [ListYears] should
    return exactly the integers that the year text of some gradeable
    record parses to.  On the table that holds one gradeable record with
    the year text "unknown", [/api/years] answers [[0]], and no record of
    that table has a year text that parses to 0, or to any integer. *)
Theorem years_lists_a_year_no_text_parses_to :
  respond ApiYears ∅ (fresh (AllCars [Sample.unknown_year])) = ok (JArr [JInt 0])
  /\ Gradeable Sample.unknown_year
  /\ (forall r, r ∈ [Sample.unknown_year] ->
        Spec.parsed_year (ModelYear r) = None)
  /\ ~ (forall y,
          JInt y ∈ items_of (body (respond ApiYears ∅
                                     (fresh (AllCars [Sample.unknown_year])))) ->
          exists r, r ∈ [Sample.unknown_year] /\ Gradeable r
                    /\ Spec.parsed_year (ModelYear r) = Some y).
Proof.
  assert (Hnone : forall r, r ∈ [Sample.unknown_year] ->
                    Spec.parsed_year (ModelYear r) = None).
  { intros r Hr. apply list_elem_of_singleton in Hr. by subst r. }
  split; [reflexivity|]. split; [split; by eexists|]. split; [exact Hnone|].
  intros H. destruct (H 0) as (r & Hin & _ & Hy).
  - vm_compute. left.
  - rewrite (Hnone r Hin) in Hy. discriminate.
Qed.

(** ** Listing makes *)

(** C8 (not met by the code; the defect of C1).  [ListMakes] should
    return exactly the makes of the gradeable records whose year text
    parses to the year asked for.  Asked for the year 0, [/api/makes]
    lists the make of a record whose year text is "unknown", and the make
    of a record whose year text is blank; neither text parses to 0. *)
Theorem makes_lists_a_make_of_no_parsed_year :
  respond ApiMakes (Sample.year_only "0") (fresh (AllCars [Sample.unknown_year]))
  = ok (JArr [JStr "Honda"])
  /\ respond ApiMakes (Sample.year_only "0") (fresh (AllCars [Sample.blank_year]))
     = ok (JArr [JStr "Kia"])
  /\ arg_int (Sample.year_only "0") "year" = Some 0
  /\ Spec.parsed_year (ModelYear Sample.unknown_year) = None
  /\ Spec.parsed_year (ModelYear Sample.blank_year) = None
  /\ ~ (forall m,
          JStr m ∈ items_of (body (respond ApiMakes (Sample.year_only "0")
                                     (fresh (AllCars [Sample.unknown_year])))) ->
          exists r, r ∈ [Sample.unknown_year] /\ Gradeable r
                    /\ Spec.parsed_year (ModelYear r) = Some 0 /\ Make r = m).
Proof.
  repeat (split; [reflexivity|]).
  intros H. destruct (H "Honda"%string) as (r & Hin & _ & Hy & _).
  - vm_compute. left.
  - apply list_elem_of_singleton in Hin. subst r. discriminate.
Qed.

(** ** Reading never writes *)

Lemma read_only_ret {A} (x : A) : read_only (mret x : Flask A).
Proof. by intros w. Qed.

Lemma read_only_bind {A B} (m : Flask A) (k : A -> Flask B) :
  read_only m -> (forall x, read_only (k x)) -> read_only (m ≫= k).
Proof.
  intros Hm Hk w. unfold mbind, Flask_bind, bind.
  specialize (Hm w). destruct (m w) as [[e|x] w1]; simpl in *; [done|].
  by rewrite Hk.
Qed.

Lemma read_only_try_except {A} (m : Flask A) (h : string -> Flask A) :
  read_only m -> (forall e, read_only (h e)) -> read_only (try_except m h).
Proof.
  intros Hm Hh w. unfold try_except.
  specialize (Hm w). destruct (m w) as [[e|x] w1]; simpl in *; [|done].
  by rewrite Hh.
Qed.

Lemma read_only_tell e : read_only (tell e).
Proof. by intros w. Qed.

Lemma read_only_get_db : read_only get_db.
Proof. intros [src g tr]. unfold get_db. simpl. by destruct g, src. Qed.

Lemma read_only_db_execute {A} q (eval : list VehicleRecord -> A) :
  read_only (db_execute q eval).
Proof.
  apply read_only_bind; [apply read_only_tell|]. intros _ [src g tr].
  unfold run_statement. simpl. destruct src; [done..|]. by case_decide.
Qed.

Lemma read_only_handler label fallback e :
  read_only (print label e;; mret fallback : Flask Response).
Proof.
  apply read_only_bind; [apply read_only_tell|]. intros _. apply read_only_ret.
Qed.

Lemma read_only_view ep args : read_only (view ep args).
Proof.
  destruct ep; simpl.
  - apply read_only_try_except; [|apply read_only_handler].
    apply read_only_bind; [apply read_only_get_db|]. intros _.
    apply read_only_bind; [apply read_only_db_execute|]. intros rows.
    apply read_only_ret.
  - unfold makes. destruct (arg_int args "year") as [y|]; [|apply read_only_ret].
    apply read_only_try_except; [|apply read_only_handler].
    apply read_only_bind; [apply read_only_get_db|]. intros _.
    apply read_only_bind; [apply read_only_db_execute|]. intros rows.
    apply read_only_ret.
  - unfold models.
    destruct (arg_int args "year") as [y|], (truthy (arg_str args "make")) as [mk|];
      try apply read_only_ret.
    apply read_only_try_except; [|apply read_only_handler].
    apply read_only_bind; [apply read_only_get_db|]. intros _.
    apply read_only_bind; [apply read_only_db_execute|]. intros rows.
    apply read_only_ret.
  - unfold grade.
    destruct (arg_int args "year") as [y|], (truthy (arg_str args "make")) as [mk|],
      (truthy (arg_str args "model")) as [mo|]; try apply read_only_ret.
    apply read_only_try_except; [|apply read_only_handler].
    apply read_only_bind; [apply read_only_get_db|]. intros _.
    apply read_only_bind; [apply read_only_db_execute|]. intros [[s c]|];
      apply read_only_ret.
Qed.

Lemma serve_source ep args w : source (serve ep args w).2 = source w.
Proof.
  unfold serve. pose proof (read_only_view ep args (set_g_db false w)) as H.
  destruct (view ep args _) as [[e|r] w1]; simpl in *;
    rewrite <- H; unfold close_db; by destruct (g_db w1).
Qed.

(** ** The response is a function of the request and the data *)

Lemma respond_answer ep args w : respond ep args w = answer ep args (source w).
Proof.
  destruct w as [src g tr]. simpl source.
  destruct ep; simpl answer.
  - destruct src as [c|c|rows]; simpl.
    + by apply respond_years_fails.
    + by apply respond_years_fails.
    + unfold respond. rewrite serve_years_table.
      destruct (decide (bindable QYears)) as [|Hn]; [done|].
      exfalso. apply Hn. constructor.
  - destruct (arg_int args "year") as [y|] eqn:Hy;
      [|unfold respond; by rewrite serve_makes_no_year].
    destruct src as [c|c|rows]; simpl.
    + by apply (respond_makes_fails _ y).
    + by apply (respond_makes_fails _ y).
    + case_decide as Hb.
      * unfold respond. rewrite (serve_makes_table _ y); [done..|].
        by apply bindable_QMakes.
      * by apply (respond_makes_fails _ y).
  - destruct (arg_int args "year") as [y|] eqn:Hy;
      [|unfold respond; rewrite serve_models_rejected; auto].
    destruct (truthy (arg_str args "make")) as [mk|] eqn:Hmk;
      [|unfold respond; rewrite serve_models_rejected; auto].
    destruct src as [c|c|rows]; simpl.
    + by apply (respond_models_fails _ y mk).
    + by apply (respond_models_fails _ y mk).
    + case_decide as Hb.
      * unfold respond. rewrite (serve_models_table _ y mk); [done..|].
        by apply bindable_QModels in Hb.
      * by apply (respond_models_fails _ y mk).
  - destruct (arg_int args "year") as [y|] eqn:Hy;
      [|unfold respond; rewrite serve_grade_rejected; auto].
    destruct (truthy (arg_str args "make")) as [mk|] eqn:Hmk;
      [|unfold respond; rewrite serve_grade_rejected; auto].
    destruct (truthy (arg_str args "model")) as [mo|] eqn:Hmo;
      [|unfold respond; rewrite serve_grade_rejected; auto].
    destruct src as [c|c|rows]; simpl.
    + by apply (respond_grade_fails _ y mk mo).
    + by apply (respond_grade_fails _ y mk mo).
    + case_decide as Hb.
      * unfold respond. rewrite (serve_grade_table _ y mk mo); [done..|].
        by apply bindable_QGrade in Hb.
      * by apply (respond_grade_fails _ y mk mo).
Qed.

(** ** Rounding to one decimal *)

Lemma round1_within_half_tenth d : within_half_tenth d (Sql.round1 d).
Proof.
  destruct d as [u [|k]]; unfold within_half_tenth, Sql.round1; simpl scale;
    simpl unscaled; (split; [reflexivity|]).
  - change (10 ^ Z.of_nat 0) with 1. lia.
  - rewrite Nat2Z.inj_succ, Z.pow_succ_r by lia.
    set (p := 10 ^ Z.of_nat k).
    assert (Hp : 0 < p) by (apply Z.pow_pos_nonneg; lia).
    set (a := Z.abs u).
    assert (Ha : 0 <= a) by apply Z.abs_nonneg.
    pose proof (Z.div_mod (2 * a + p) (2 * p) ltac:(lia)) as Hdm.
    pose proof (Z.mod_pos_bound (2 * a + p) (2 * p) ltac:(lia)) as Hmb.
    set (q := (2 * a + p) / (2 * p)) in *.
    set (t := q * p).
    assert (Ht : 2 * p * q = 2 * t) by (unfold t; ring).
    rewrite Ht in Hdm.
    destruct (Z.sgn_spec u) as [[Hs ->]|[[Hs ->]|[Hs ->]]].
    + replace (1 * q * (10 * p) - 10 * u) with (10 * (t - u)) by (unfold t; ring).
      unfold a in *. lia.
    + replace (0 * q * (10 * p) - 10 * u) with (- (10 * u)) by ring. lia.
    + replace (-1 * q * (10 * p) - 10 * u) with (- (10 * (t + u))) by (unfold t; ring).
      unfold a in *. lia.
Qed.

Example round1_score : Sql.round1 (Dec 783 2) = Dec 78 1.
Proof. reflexivity. Qed.

Example round1_certainty : Sql.round1 (Dec 426 2) = Dec 43 1.
Proof. reflexivity. Qed.

Example round1_half_away : Sql.round1 (Dec (-25) 2) = Dec (-3) 1.
Proof. reflexivity. Qed.

Example round1_integer : Sql.round1 (Dec 7 0) = Dec 70 1.
Proof. reflexivity. Qed.

(** ** Looking up a grade *)

Lemma well_formed_truthy args y mk mo :
  well_formed args y mk mo ->
  arg_int args "year" = Some y /\ truthy (arg_str args "make") = Some mk
  /\ truthy (arg_str args "model") = Some mo.
Proof.
  intros (Hy & Hmk & Hmk' & Hmo & Hmo'). split; [done|].
  split; by apply truthy_Some.
Qed.

Lemma missing_params_truthy args :
  missing_params args
  <-> arg_int args "year" = None \/ truthy (arg_str args "make") = None
      \/ truthy (arg_str args "model") = None.
Proof. unfold missing_params. rewrite !truthy_None. tauto. Qed.

Lemma missing_or_well_formed args :
  missing_params args \/ exists y mk mo, well_formed args y mk mo.
Proof.
  rewrite missing_params_truthy.
  destruct (arg_int args "year") as [y|] eqn:Hy; [|left; by left].
  destruct (truthy (arg_str args "make")) as [mk|] eqn:Hmk;
    [|left; right; by left].
  destruct (truthy (arg_str args "model")) as [mo|] eqn:Hmo;
    [|left; right; by right].
  right. exists y, mk, mo. apply truthy_Some in Hmk as [? ?].
  apply truthy_Some in Hmo as [? ?]. unfold well_formed. auto.
Qed.

Lemma missing_not_well_formed args y mk mo :
  missing_params args -> well_formed args y mk mo -> False.
Proof.
  intros Hm Hw. apply well_formed_truthy in Hw as (Hy & Hmk & Hmo).
  apply missing_params_truthy in Hm as [H|[H|H]]; congruence.
Qed.

Lemma respond_grade_missing args w :
  missing_params args -> respond ApiGrade args w = Resp (error "Missing params") 400.
Proof.
  intros H. unfold respond. rewrite serve_grade_rejected; [done|].
  by apply missing_params_truthy.
Qed.

Lemma respond_grade_well_formed args w y mk mo :
  well_formed args y mk mo ->
  respond ApiGrade args w
  = query (source w) (QGrade y mk mo) (Sql.select_grade y mk mo)
      (grade_response y mk mo) (Resp (error "Server error") 500).
Proof.
  intros Hw. apply well_formed_truthy in Hw as (Hy & Hmk & Hmo).
  rewrite respond_answer. simpl. by rewrite Hy, Hmk, Hmo.
Qed.

Lemma respond_grade_executed args w y mk mo rows :
  well_formed args y mk mo -> source w = AllCars rows -> Text.fits_int64 y ->
  respond ApiGrade args w = grade_response y mk mo (Sql.select_grade y mk mo rows).
Proof.
  intros Hw Hsrc Hfit. rewrite (respond_grade_well_formed _ _ y mk mo) by done.
  rewrite Hsrc. simpl. case_decide as Hb; [done|].
  exfalso. by apply Hb, bindable_QGrade.
Qed.

(** The statuses of [/api/grade], by case. *)
Lemma grade_status_200 args w y mk mo :
  well_formed args y mk mo ->
  status (respond ApiGrade args w) = 200 ->
  exists rows s c,
    source w = AllCars rows /\ Text.fits_int64 y
    /\ Sql.select_grade y mk mo rows = Some (s, c)
    /\ respond ApiGrade args w = ok (grade_body y mk mo s c).
Proof.
  intros Hw. rewrite (respond_grade_well_formed _ _ y mk mo) by done.
  destruct (source w) as [c|c|rows]; simpl; try discriminate.
  case_decide as Hb; [|discriminate].
  destruct (Sql.select_grade y mk mo rows) as [[s c]|] eqn:Hsel; [|discriminate].
  intros _. exists rows, s, c. apply bindable_QGrade in Hb.
  split; [done|]. split; [done|]. split; done.
Qed.

(** C4 (not met by the code; the defect of C1).  [GetGrade] should
    answer NotFound when no gradeable record matches the year, the make
    and the model.  Asked for the year 0, [/api/grade] answers 200 from a
    record whose year text is "unknown", and from a record whose year
    text is blank: no record of those tables has a year text that parses
    to 0, so no record matches. *)
Theorem grade_found_where_no_record_matches :
  well_formed (Sample.request "0" "Honda" "Civic") 0 "Honda" "Civic"
  /\ respond ApiGrade (Sample.request "0" "Honda" "Civic")
       (fresh (AllCars [Sample.unknown_year]))
     = ok (grade_json 0 "Honda" "Civic" (Dec 78 1) (Dec 43 1))
  /\ (forall r, r ∈ [Sample.unknown_year] -> ~ SpecMatches 0 "Honda" "Civic" r)
  /\ respond ApiGrade (Sample.request "0" "Kia" "Rio")
       (fresh (AllCars [Sample.blank_year]))
     = ok (grade_json 0 "Kia" "Rio" (Dec 50 1) (Dec 3 1))
  /\ (forall r, r ∈ [Sample.blank_year] -> ~ SpecMatches 0 "Kia" "Rio" r).
Proof.
  split; [unfold well_formed; repeat split; try reflexivity; discriminate|].
  split; [reflexivity|]. split.
  { intros r Hin%list_elem_of_singleton (_ & Hy & _). subst r. discriminate. }
  split; [reflexivity|].
  intros r Hin%list_elem_of_singleton (_ & Hy & _). subst r. discriminate.
Qed.

(** C3. On success, a well-formed [GetGrade] request is answered by the
    object [{year, make, model, score, certainty}] in which year, make and
    model are the request's own values and score and certainty are the
    [Score] and [Certainty] of the first matching record rounded to one
    decimal digit, as JSON floating-point numbers. *)
Theorem grade_success_echo_rounded args w y mk mo :
  well_formed args y mk mo ->
  status (respond ApiGrade args w) = 200 ->
  exists rows pre r post s c,
    source w = AllCars rows
    /\ rows = pre ++ r :: post /\ Matches y mk mo r
    /\ Forall (fun z => ~ Matches y mk mo z) pre
    /\ Score r = Some s /\ Certainty r = Some c
    /\ body (respond ApiGrade args w)
       = grade_json y mk mo (Sql.round1 s) (Sql.round1 c)
    /\ within_half_tenth s (Sql.round1 s)
    /\ within_half_tenth c (Sql.round1 c).
Proof.
  intros Hw Hok.
  destruct (grade_status_200 args w y mk mo Hw Hok)
    as (rows & sr & cr & Hsrc & Hfit & Hsel & Hresp).
  apply select_grade_Some in Hsel
    as (pre & r & post & Hrows & Hm & Hpre & -> & ->).
  pose proof Hm as ([[s Hs] [c Hc]] & _).
  exists rows, pre, r, post, s, c. rewrite Hresp, Hs, Hc. simpl.
  split; [done|]. split; [done|]. split; [done|]. split; [done|].
  split; [done|]. split; [done|]. split; [done|].
  split; apply round1_within_half_tenth.
Qed.

Lemma grade_success_echo_rounded_witness :
  exists rows pre r post s c,
    source (fresh (AllCars Sample.table)) = AllCars rows
    /\ rows = pre ++ r :: post /\ Matches 2018 "Honda" "Civic" r
    /\ Forall (fun z => ~ Matches 2018 "Honda" "Civic" z) pre
    /\ Score r = Some s /\ Certainty r = Some c
    /\ body (respond ApiGrade (Sample.request "2018" "Honda" "Civic")
               (fresh (AllCars Sample.table)))
       = grade_json 2018 "Honda" "Civic" (Sql.round1 s) (Sql.round1 c)
    /\ within_half_tenth s (Sql.round1 s)
    /\ within_half_tenth c (Sql.round1 c).
Proof.
  apply (grade_success_echo_rounded
           (Sample.request "2018" "Honda" "Civic")
           (fresh (AllCars Sample.table)) 2018 "Honda" "Civic").
  - unfold well_formed. repeat split; try reflexivity; discriminate.
  - reflexivity.
Defined.

(** The specification's example: 7.83 and 4.26 are answered as 7.8 and 4.3. *)
Example grade_civic_2018 :
  respond ApiGrade (Sample.request "2018" "Honda" "Civic")
    (fresh (AllCars Sample.table))
  = ok (grade_json 2018 "Honda" "Civic" (Dec 78 1) (Dec 43 1)).
Proof. reflexivity. Qed.

(** C10. A successful [GetGrade] answer carries numbers in its score and
    certainty fields, never null: the row fetched has both rounded
    columns present, so the fallback of [float_or_none] is not taken. *)
Theorem grade_success_never_null args w :
  status (respond ApiGrade args w) = 200 ->
  exists y mk mo rows s c,
    source w = AllCars rows
    /\ Sql.select_grade y mk mo rows = Some (Some s, Some c)
    /\ field "score" (body (respond ApiGrade args w)) = Some (JFloat s)
    /\ field "certainty" (body (respond ApiGrade args w)) = Some (JFloat c).
Proof.
  intros Hok. destruct (missing_or_well_formed args) as [Hm|(y & mk & mo & Hw)].
  { rewrite respond_grade_missing in Hok by done. discriminate. }
  destruct (grade_status_200 args w y mk mo Hw Hok)
    as (rows & sr & cr & Hsrc & Hfit & Hsel & Hresp).
  pose proof Hsel as Hsel'.
  apply select_grade_Some in Hsel'
    as (pre & r & post & Hrows & Hm & Hpre & -> & ->).
  destruct Hm as ([[s Hs] [c Hc]] & _).
  rewrite Hs, Hc in Hsel, Hresp. simpl in Hsel, Hresp.
  exists y, mk, mo, rows, (Sql.round1 s), (Sql.round1 c).
  rewrite Hresp. by repeat split.
Qed.

Lemma grade_success_never_null_witness :
  exists y mk mo rows s c,
    source (fresh (AllCars Sample.table)) = AllCars rows
    /\ Sql.select_grade y mk mo rows = Some (Some s, Some c)
    /\ field "score"
         (body (respond ApiGrade (Sample.request "2018" "Honda" "Civic")
                  (fresh (AllCars Sample.table)))) = Some (JFloat s)
    /\ field "certainty"
         (body (respond ApiGrade (Sample.request "2018" "Honda" "Civic")
                  (fresh (AllCars Sample.table)))) = Some (JFloat c).
Proof.
  apply (grade_success_never_null (Sample.request "2018" "Honda" "Civic")
           (fresh (AllCars Sample.table))).
  reflexivity.
Defined.

Lemma arg_int_None args k :
  arg_int args k = None
  <-> args !! k = None \/ exists s, args !! k = Some s /\ Text.py_int s = None.
Proof.
  unfold arg_int. destruct (args !! k) as [s|]; simpl; split.
  - intros H. right. by exists s.
  - intros [H|(s' & [= <-] & H)]; [discriminate|done].
  - by left.
  - done.
Qed.

Lemma well_formed_status args w y mk mo :
  well_formed args y mk mo -> status (respond ApiGrade args w) <> 400.
Proof.
  intros Hw. rewrite (respond_grade_well_formed _ _ y mk mo) by done.
  unfold query. destruct (source w) as [c|c|rows]; simpl; try discriminate.
  case_decide; [|discriminate].
  by destruct (Sql.select_grade y mk mo rows) as [[s c]|].
Qed.

(** C5. [GetGrade] answers 400 with the body [{"error": "Missing params"}]
    exactly when one of year, make and model is missing or empty, where a
    year that does not parse as an integer counts as missing; such a
    request opens no connection and sends no statement. *)
Theorem grade_invalid_request_iff args w :
  (respond ApiGrade args w = Resp (error "Missing params") 400
   <-> missing_params args)
  /\ (status (respond ApiGrade args w) = 400 <-> missing_params args)
  /\ (missing_params args -> untouched w (serve ApiGrade args w).2)
  /\ (arg_int args "year" = None
      <-> args !! "year"%string = None
          \/ exists s, args !! "year"%string = Some s /\ Text.py_int s = None).
Proof.
  assert (Hstatus : status (respond ApiGrade args w) = 400 -> missing_params args).
  { intros H. destruct (missing_or_well_formed args) as [Hm|(y & mk & mo & Hw)];
      [done|]. by apply (well_formed_status args w) in Hw. }
  split; [|split; [|split]].
  - split; [|by apply respond_grade_missing].
    intros H. apply Hstatus. by rewrite H.
  - split; [done|]. intros Hm. by rewrite respond_grade_missing.
  - intros Hm. rewrite serve_grade_rejected by by apply missing_params_truthy.
    by destruct w.
  - apply arg_int_None.
Qed.

Example grade_1899_not_found :
  respond ApiGrade (Sample.request "1899" "Nonexistent" "Model")
    (fresh (AllCars Sample.table))
  = Resp (error "Not found") 404.
Proof. reflexivity. Qed.

Example grade_without_model :
  respond ApiGrade {[ "year"%string := "2018"%string; "make"%string := "Honda"%string ]}
    (fresh (AllCars Sample.table))
  = Resp (error "Missing params") 400.
Proof. reflexivity. Qed.

(** ** Listing models *)

(** C6, as stated, fails: a make made of spaces only is not empty for the
    test [not make], so the statement is sent with that make, and the
    answer lists the models of the records whose [Make] is that very text. *)
Lemma models_blank_make_is_queried :
  ~ (forall args w mk,
       arg_str args "make" = Some mk -> Text.trim mk = EmptyString ->
       respond ApiModels args w = ok empty_list
       /\ untouched w (serve ApiModels args w).2).
Proof.
  intros H.
  destruct (H (Sample.year_make "2018" " ")
              (fresh (AllCars [Sample.spaced_make])) " "%string)
    as [Hresp _]; [reflexivity..|].
  vm_compute in Hresp. discriminate.
Qed.

Lemma sample_table_clean : clean_years Sample.table.
Proof.
  intros r Hin _. unfold Sample.table in Hin.
  repeat (apply elem_of_cons in Hin as [->|Hin]);
    try (by apply elem_of_nil in Hin);
    vm_compute; first [exact I | split; [reflexivity|split; discriminate]].
Qed.

(** C6, amended.  Without a year that parses as an integer, or with a make
    that is missing or the empty text, [ListModels] answers the empty
    sequence and leaves the data source alone; a make made of spaces is
    not trimmed and is queried as given.  Otherwise, on a readable
    table, a year within the signed 64-bit range is answered 200 with
    exactly the [Model] values of the gradeable records whose year text
    parses to the year and whose [Make] equals the make, each once, in
    strictly ascending byte-wise order, and a year outside that range is
    answered 500 with the empty sequence.  This is stated for the tables
    whose gradeable records have a year text that is absent or a numeral
    of that range; what other year texts do is the subject of C1. *)
Theorem models_exact_on_clean_table args w :
  (arg_int args "year" = None \/ arg_str args "make" = None
   \/ arg_str args "make" = Some EmptyString ->
   respond ApiModels args w = ok empty_list
   /\ untouched w (serve ApiModels args w).2)
  /\ (forall y mk rows,
        arg_int args "year" = Some y ->
        arg_str args "make" = Some mk -> mk <> EmptyString ->
        source w = AllCars rows -> clean_years rows ->
        (Text.fits_int64 y ->
         exists ms : list string,
           respond ApiModels args w = ok (JArr (JStr <$> ms))
           /\ (forall m, m ∈ ms <->
                 exists r, r ∈ rows /\ Gradeable r
                           /\ Spec.parsed_year (ModelYear r) = Some y
                           /\ Make r = mk /\ Model r = m)
           /\ strictly_ascending ms /\ NoDup ms)
        /\ (~ Text.fits_int64 y ->
            respond ApiModels args w = Resp empty_list 500)).
Proof.
  split.
  - intros H. unfold respond. rewrite serve_models_rejected.
    + by destruct w.
    + rewrite truthy_None. tauto.
  - intros y mk rows Hy Hmk Hne Hsrc Hclean.
    assert (Hmk' : truthy (arg_str args "make") = Some mk) by by apply truthy_Some.
    split.
    + intros Hfit. destruct w as [src g tr]. simpl in Hsrc. subst src.
      exists (Sql.select_models y mk rows).
      assert (Hsorted : strictly_ascending (Sql.select_models y mk rows))
        by apply ordered_distinct_text.
      split; [|split; [|split]].
      * unfold respond. by rewrite (serve_models_table _ y mk).
      * intros m. rewrite elem_of_select_models.
        split; intros (r & Hin & Hg & Hyr & Hrest); exists r;
          (split; [done|]); (split; [done|]); (split; [|done]);
          by apply (clean_stored_year rows).
      * exact Hsorted.
      * by apply strictly_ascending_NoDup.
    + intros Hfit. apply (respond_models_fails _ y mk); [done..|].
      rewrite Hsrc. simpl. by rewrite bindable_QModels.
Qed.

Lemma models_exact_on_clean_table_witness :
  (respond ApiModels (Sample.year_empty_make "2018") (fresh (AllCars Sample.table))
   = ok empty_list
   /\ untouched (fresh (AllCars Sample.table))
        (serve ApiModels (Sample.year_empty_make "2018")
           (fresh (AllCars Sample.table))).2)
  /\ (exists ms : list string,
        respond ApiModels (Sample.year_make "2018" "Honda")
          (fresh (AllCars Sample.table)) = ok (JArr (JStr <$> ms))
        /\ (forall m, m ∈ ms <->
              exists r, r ∈ Sample.table /\ Gradeable r
                        /\ Spec.parsed_year (ModelYear r) = Some 2018
                        /\ Make r = "Honda"%string /\ Model r = m)
        /\ strictly_ascending ms /\ NoDup ms)
  /\ respond ApiModels (Sample.year_make "2018" "Honda")
       (fresh (AllCars Sample.table))
     = ok (JArr [JStr "Accord"; JStr "Civic"]).
Proof.
  split; [|split].
  - apply (proj1 (models_exact_on_clean_table (Sample.year_empty_make "2018")
                    (fresh (AllCars Sample.table)))).
    right. right. reflexivity.
  - apply (proj2 (models_exact_on_clean_table (Sample.year_make "2018" "Honda")
                    (fresh (AllCars Sample.table)))
             2018 "Honda"%string Sample.table).
    + reflexivity.
    + reflexivity.
    + discriminate.
    + reflexivity.
    + apply sample_table_clean.
    + vm_compute. split; discriminate.
  - reflexivity.
Defined.

Example models_honda_2018 :
  respond ApiModels (Sample.year_make "2018" "Honda") (fresh (AllCars Sample.table))
  = ok (JArr [JStr "Accord"; JStr "Civic"]).
Proof. reflexivity. Qed.

Example models_blank_make :
  serve ApiModels (Sample.year_make "2018" " ") (fresh (AllCars [Sample.spaced_make]))
  = (ok (JArr [JStr "Civic"]),
     after_query (AllCars [Sample.spaced_make]) [] (QModels 2018 " ")).
Proof. reflexivity. Qed.

(** ** Failures of the data source *)

(** C7. When the data cannot be read (the file does not open, the table
    cannot be queried, or a parameter cannot be bound), the three list
    endpoints answer 500 with the empty array and [GetGrade] answers 500
    with the body [{"error": "Server error"}]: the same response whatever
    the cause, with nothing of the cause or of the data in it. *)
Theorem failure_degrades args w :
  (access_fails (source w) QYears ->
   respond ApiYears args w = Resp (JArr []) 500)
  /\ (forall y, arg_int args "year" = Some y ->
        access_fails (source w) (QMakes y) ->
        respond ApiMakes args w = Resp (JArr []) 500)
  /\ (forall y mk, arg_int args "year" = Some y ->
        arg_str args "make" = Some mk -> mk <> EmptyString ->
        access_fails (source w) (QModels y mk) ->
        respond ApiModels args w = Resp (JArr []) 500)
  /\ (forall y mk mo, well_formed args y mk mo ->
        access_fails (source w) (QGrade y mk mo) ->
        respond ApiGrade args w
        = Resp (JObj [("error"%string, JStr "Server error")]) 500).
Proof.
  split; [|split; [|split]].
  - apply respond_years_fails.
  - intros y. apply respond_makes_fails.
  - intros y mk Hy Hmk Hne. apply respond_models_fails; [done|].
    by apply truthy_Some.
  - intros y mk mo Hw. apply well_formed_truthy in Hw as (Hy & Hmk & Hmo).
    by apply respond_grade_fails.
Qed.

Lemma failure_degrades_witness :
  respond ApiYears ∅ (fresh (Unopenable "unable to open database file"))
  = Resp (JArr []) 500
  /\ respond ApiMakes (Sample.request "2018" "Honda" "Civic")
       (fresh (Unqueryable "no such table: AllCars")) = Resp (JArr []) 500
  /\ respond ApiModels (Sample.request "99999999999999999999" "Honda" "Civic")
       (fresh (AllCars Sample.table)) = Resp (JArr []) 500
  /\ respond ApiGrade (Sample.request "2018" "Honda" "Civic")
       (fresh (Unqueryable "no such column: Score"))
     = Resp (JObj [("error"%string, JStr "Server error")]) 500.
Proof.
  split; [|split; [|split]].
  - apply (proj1 (failure_degrades ∅ (fresh (Unopenable "unable to open database file")))).
    exact I.
  - apply (proj1 (proj2 (failure_degrades (Sample.request "2018" "Honda" "Civic")
                           (fresh (Unqueryable "no such table: AllCars")))) 2018);
      [reflexivity|exact I].
  - apply (proj1 (proj2 (proj2 (failure_degrades
                                  (Sample.request "99999999999999999999" "Honda" "Civic")
                                  (fresh (AllCars Sample.table)))))
             99999999999999999999 "Honda"%string);
      [reflexivity|reflexivity|discriminate|].
    simpl. unfold bindable, Text.fits_int64, Text.INT64_MAX. simpl.
    rewrite Forall_singleton. lia.
  - apply (proj2 (proj2 (proj2 (failure_degrades (Sample.request "2018" "Honda" "Civic")
                                  (fresh (Unqueryable "no such column: Score")))))
             2018 "Honda"%string "Civic"%string); [|exact I].
    unfold well_formed. repeat split; try reflexivity; discriminate.
Defined.

(** The cause is printed for the operator and goes nowhere else. *)
Example failure_is_logged :
  serve ApiGrade (Sample.request "2018" "Honda" "Civic")
    (fresh (Unqueryable "no such table: AllCars"))
  = (Resp (error "Server error") 500,
     Mk_World (Unqueryable "no such table: AllCars") false
       [EvConnect; EvExecute (QGrade 2018 "Honda" "Civic");
        EvPrint "Error /api/grade: no such table: AllCars"; EvClose]).
Proof. reflexivity. Qed.

(** ** Read-only service *)

(** The common shape of the four views over a handle. *)
Lemma Db_attempt writable P {A} q (eval : list VehicleRecord -> A)
    (k : A -> Db.M Response) (f : A -> Response) label fallback d l :
  (forall x w, k x w = (inr (f x), w)) ->
  exists w' evs,
    Db.try_except
      (db ← Db.get_db P;
       x ← Db.execute writable db (Db.SELECT q) eval; k x)
      (fun e => Db.print label e;; mret fallback)
      (Db.Mk_World d None l)
    = (inr (query d q eval f fallback), w')
    /\ Db.close_db w' = Db.Mk_World d None (l ++ evs)
    /\ Forall (Db.reading P) evs.
Proof.
  intros Hk.
  assert (Hc : Db.reading P (Db.Connected (Uri.db_uri P))) by by left.
  assert (He : Db.reading P (Db.Executed (Db.SELECT q)))
    by (right; left; by exists q).
  assert (Hp : forall line, Db.reading P (Db.Printed line))
    by (intros line; right; right; left; by exists line).
  assert (Hx : Db.reading P Db.Closed) by by do 3 right.
  unfold Db.try_except, Db.get_db, Db.connect, Db.execute, Db.effect,
    Db.print, Db.tell, query.
  unfold mbind, mret, Db.M_bind, Db.M_ret. simpl.
  destruct d as [c|c|rows]; simpl.
  - eexists _, [_; _]. split; [reflexivity|]. split.
    + unfold Db.close_db. simpl. by rewrite <- app_assoc.
    + repeat (apply List.Forall_cons; [by auto|]). apply List.Forall_nil.
  - eexists _, [_; _; _; _]. split; [reflexivity|]. split.
    + unfold Db.close_db. simpl. by rewrite <- !app_assoc.
    + repeat (apply List.Forall_cons; [by auto|]). apply List.Forall_nil.
  - destruct (decide (bindable q)) as [Hb|Hb]; simpl.
    + rewrite Hk. eexists _, [_; _; _]. split; [reflexivity|]. split.
      * unfold Db.close_db. simpl. by rewrite <- !app_assoc.
      * repeat (apply List.Forall_cons; [by auto|]). apply List.Forall_nil.
    + eexists _, [_; _; _; _]. split; [reflexivity|]. split.
      * unfold Db.close_db. simpl. by rewrite <- !app_assoc.
      * repeat (apply List.Forall_cons; [by auto|]). apply List.Forall_nil.
Qed.

(** Over a handle the views give the responses of the first embedding,
    keep the table and add only events of reading. *)
Lemma Db_serve_answer writable P ep args d h l :
  exists evs,
    Db.serve writable P ep args (Db.Mk_World d h l)
    = (answer ep args d, Db.Mk_World d None (l ++ evs))
    /\ Forall (Db.reading P) evs.
Proof.
  assert (Hnone : forall r : Response,
             exists evs,
               (r, Db.close_db (Db.Mk_World d None l))
               = (r, Db.Mk_World d None (l ++ evs))
               /\ Forall (Db.reading P) evs).
  { intros r. exists []. split; [by rewrite app_nil_r|constructor]. }
  assert (Hrun : forall {A} q (eval : list VehicleRecord -> A)
                   (k : A -> Db.M Response) (f : A -> Response) label fallback,
             (forall x w, k x w = (inr (f x), w)) ->
             exists evs,
               match
                 Db.try_except
                   (db ← Db.get_db P;
                    x ← Db.execute writable db (Db.SELECT q) eval; k x)
                   (fun e => Db.print label e;; mret fallback)
                   (Db.Mk_World d None l)
               with
               | (inr r, w') => (r, Db.close_db w')
               | (inl _, w') =>
                   (Resp (JStr "Internal Server Error") 500, Db.close_db w')
               end
               = (query d q eval f fallback, Db.Mk_World d None (l ++ evs))
               /\ Forall (Db.reading P) evs).
  { intros A q eval k f label fallback Hk.
    destruct (Db_attempt writable P q eval k f label fallback d l Hk)
      as (w' & evs & -> & -> & Hev).
    by exists evs. }
  unfold Db.serve. simpl Db.data. simpl Db.log.
  destruct ep; simpl Db.view; simpl answer.
  - apply Hrun. by intros x w.
  - unfold Db.makes. destruct (arg_int args "year") as [y|]; [|apply Hnone].
    apply Hrun. by intros x w.
  - unfold Db.models.
    destruct (arg_int args "year") as [y|]; [|apply Hnone].
    destruct (truthy (arg_str args "make")) as [mk|]; [|apply Hnone].
    apply Hrun. by intros x w.
  - unfold Db.grade.
    destruct (arg_int args "year") as [y|]; [|apply Hnone].
    destruct (truthy (arg_str args "make")) as [mk|]; [|apply Hnone].
    destruct (truthy (arg_str args "model")) as [mo|]; [|apply Hnone].
    apply (Hrun _ (QGrade y mk mo) (Sql.select_grade y mk mo) _
             (grade_response y mk mo)).
    by intros [[s c]|] w.
Qed.

(** A statement that writes does change the table behind a handle
    opened for writing, and is refused behind any other. *)
Lemma write_reaches_writable_handle writable P r rows l :
  writable (Uri.db_uri P) = true ->
  Db.data (Db.send writable P (Db.INSERT r) (Db.Mk_World (AllCars rows) None l)).2
  = AllCars (rows ++ [r]).
Proof.
  intros Hw. unfold Db.send, Db.get_db, Db.connect, Db.execute, Db.effect, Db.tell.
  unfold mbind, Db.M_bind. simpl. by rewrite Hw.
Qed.

Lemma write_refused_elsewhere writable P s d l :
  writable (Uri.db_uri P) = false ->
  Db.data (Db.send writable P s (Db.Mk_World d None l)).2 = d.
Proof.
  intros Hw. unfold Db.send, Db.get_db, Db.connect, Db.execute, Db.effect, Db.tell.
  unfold mbind, Db.M_bind. simpl.
  destruct d as [c|c|rows]; simpl; try done.
  destruct s as [q|r|]; simpl; rewrite ?Hw; simpl; try done.
  by case_decide.
Qed.

(** C9. No data endpoint changes the data source, although a handle
    opened for writing would let a statement change it: every statement
    the views send is a SELECT, and the one URI they connect to is
    [file:...?mode=ro], behind which, when SQLite reads it as read-only,
    no statement whatever changes the table.  So a request repeated on
    the same data is answered identically, after the request itself has
    been served and in any world that holds the same data; the responses
    are those of the first embedding. *)
Theorem endpoints_only_read writable P ep args w :
  Db.data (Db.serve writable P ep args w).2 = Db.data w
  /\ (exists evs,
        Db.log (Db.serve writable P ep args w).2 = Db.log w ++ evs
        /\ Forall (Db.reading P) evs)
  /\ (exists path,
        Uri.db_uri P = "file:" +:+ path +:+ "?mode=ro"
        /\ forall s d l,
             writable (Uri.db_uri P) = false ->
             Db.data (Db.send writable P s (Db.Mk_World d None l)).2 = d)
  /\ Db.respond writable P ep args (Db.serve writable P ep args w).2
     = Db.respond writable P ep args w
  /\ (forall w', Db.data w' = Db.data w ->
        Db.respond writable P ep args w' = Db.respond writable P ep args w)
  /\ Db.respond writable P ep args w
     = respond ep args (Mk_World (Db.data w) false []).
Proof.
  assert (Hresp : forall w0, Db.respond writable P ep args w0
                             = answer ep args (Db.data w0)).
  { intros [d h l]. unfold Db.respond.
    destruct (Db_serve_answer writable P ep args d h l) as (evs & -> & _). done. }
  destruct w as [d h l].
  destruct (Db_serve_answer writable P ep args d h l) as (evs & Hs & Hev).
  split; [by rewrite Hs|]. split; [rewrite Hs; by exists evs|]. split.
  { exists (Uri.replace_backslash P). split; [done|].
    intros s d' l' Hw. by apply write_refused_elsewhere. }
  split; [by rewrite !Hresp, Hs|]. split.
  - intros w' Hd. by rewrite !Hresp, Hd.
  - by rewrite Hresp, respond_answer.
Qed.

(** Behind a handle opened for writing the table is not safe from a
    statement that writes; the views send none. *)
Example insert_on_writable_handle :
  Db.data (Db.send (fun _ => true) "cars.db" (Db.INSERT Sample.accord)
             (Db.Mk_World (AllCars [Sample.civic]) None [])).2
  = AllCars [Sample.civic; Sample.accord]
  /\ Db.data (Db.serve (fun _ => true) "cars.db" ApiYears ∅
                (Db.Mk_World (AllCars [Sample.civic]) None [])).2
     = AllCars [Sample.civic].
Proof. split; reflexivity. Qed.

(** ** Malformed year texts *)

(** A record the filter rejects can be dropped from the table. *)
Lemma filter_drop {A} (P : A -> Prop) `{forall x, Decision (P x)} pre r post :
  ~ P r -> filter P (pre ++ r :: post) = filter P (pre ++ post).
Proof. intros Hr. by rewrite !filter_app, filter_cons_False. Qed.

(** A record without year text takes part in no answer. *)
Lemma absent_year_excluded ep args pre r post g tr :
  ModelYear r = None ->
  respond ep args (Mk_World (AllCars (pre ++ r :: post)) g tr)
  = respond ep args (Mk_World (AllCars (pre ++ post)) g tr).
Proof.
  intros Hnull. rewrite !respond_answer. simpl source.
  assert (Hy : stored_year r = None) by (unfold stored_year; by rewrite Hnull).
  assert (Hyears : Sql.select_years (pre ++ r :: post) = Sql.select_years (pre ++ post)).
  { unfold Sql.select_years. rewrite filter_drop; [done|].
    rewrite holds_where_years. intros [_ (s & Hs & _)]. congruence. }
  assert (Hmakes : forall y,
             Sql.select_makes y (pre ++ r :: post) = Sql.select_makes y (pre ++ post)).
  { intros y. unfold Sql.select_makes. rewrite filter_drop; [done|].
    rewrite holds_where_makes. intros [_ ?]. congruence. }
  assert (Hmodels : forall y mk,
             Sql.select_models y mk (pre ++ r :: post)
             = Sql.select_models y mk (pre ++ post)).
  { intros y mk. unfold Sql.select_models. rewrite filter_drop; [done|].
    rewrite holds_where_models. intros (_ & ? & _). congruence. }
  assert (Hgrade : forall y mk mo,
             Sql.select_grade y mk mo (pre ++ r :: post)
             = Sql.select_grade y mk mo (pre ++ post)).
  { intros y mk mo. unfold Sql.select_grade. rewrite filter_drop; [done|].
    rewrite holds_where_grade. intros (_ & ? & _). congruence. }
  destruct ep; simpl; unfold query.
  - by rewrite Hyears.
  - destruct (arg_int args "year"); [|done]. by rewrite Hmakes.
  - destruct (arg_int args "year"), (truthy (arg_str args "make")); try done.
    by rewrite Hmodels.
  - destruct (arg_int args "year"), (truthy (arg_str args "make")),
      (truthy (arg_str args "model")); try done.
    by rewrite Hgrade.
Qed.

(** A record whose year text is blank is not listed by [/api/years]. *)
Lemma blank_year_not_listed args pre r post g tr s :
  ModelYear r = Some s -> Text.trim s = EmptyString ->
  respond ApiYears args (Mk_World (AllCars (pre ++ r :: post)) g tr)
  = respond ApiYears args (Mk_World (AllCars (pre ++ post)) g tr).
Proof.
  intros Hs Hblank. rewrite !respond_answer. simpl. unfold query.
  unfold Sql.select_years. rewrite filter_drop; [done|].
  rewrite holds_where_years. intros [_ (s' & Hs' & Hne)]. congruence.
Qed.

(** C1 (not met by the code).  A record whose year text is absent,
    blank or not a numeral should take part in no answer.  Yet a
    gradeable record whose year text is "unknown" is listed by
    [/api/years] as the year 0 and is matched by the year 0 in the three
    other queries, because SQLite converts a text without leading digits
    to 0 and never to NULL; and a record whose year text is blank is left
    out by [/api/years], whose statement tests for it, but is matched by
    the year 0 in the other three, whose statements do not. *)
Theorem malformed_year_is_served_as_year_zero :
  Spec.malformed_year (ModelYear Sample.unknown_year)
  /\ Spec.malformed_year (ModelYear Sample.blank_year)
  /\ respond ApiYears ∅ (fresh (AllCars [Sample.unknown_year]))
     = ok (JArr [JInt 0])
  /\ respond ApiMakes (Sample.request "0" "Honda" "Civic")
       (fresh (AllCars [Sample.unknown_year]))
     = ok (JArr [JStr "Honda"])
  /\ respond ApiModels (Sample.request "0" "Honda" "Civic")
       (fresh (AllCars [Sample.unknown_year]))
     = ok (JArr [JStr "Civic"])
  /\ respond ApiGrade (Sample.request "0" "Honda" "Civic")
       (fresh (AllCars [Sample.unknown_year]))
     = ok (grade_json 0 "Honda" "Civic" (Dec 78 1) (Dec 43 1))
  /\ respond ApiYears ∅ (fresh (AllCars [Sample.blank_year])) = ok (JArr [])
  /\ respond ApiMakes (Sample.request "0" "Kia" "Rio")
       (fresh (AllCars [Sample.blank_year]))
     = ok (JArr [JStr "Kia"])
  /\ respond ApiGrade (Sample.request "0" "Kia" "Rio")
       (fresh (AllCars [Sample.blank_year]))
     = ok (grade_json 0 "Kia" "Rio" (Dec 50 1) (Dec 3 1)).
Proof. repeat split; reflexivity. Qed.

(** Without the record, the same requests find nothing. *)
Example empty_table_answers :
  respond ApiYears ∅ (fresh (AllCars [])) = ok (JArr [])
  /\ respond ApiMakes (Sample.request "0" "Honda" "Civic") (fresh (AllCars []))
     = ok (JArr [])
  /\ respond ApiGrade (Sample.request "0" "Honda" "Civic") (fresh (AllCars []))
     = Resp (error "Not found") 404.
Proof. repeat split; reflexivity. Qed.

(** A year text with a numeric prefix is served under that prefix. *)
Example year_with_suffix_is_listed :
  respond ApiYears ∅
    (fresh (AllCars [Car (Some "2018 (est.)"%string) "Honda" "Civic"
                       (Some (Dec 783 2)) (Some (Dec 426 2))]))
  = ok (JArr [JInt 2018]).
Proof. reflexivity. Qed.

(** ** The specification's examples *)

Example years_of_sample :
  respond ApiYears ∅ (fresh (AllCars Sample.table)) = ok (JArr [JInt 2018]).
Proof. reflexivity. Qed.

Example makes_of_2018 :
  respond ApiMakes (Sample.year_only "2018") (fresh (AllCars Sample.table))
  = ok (JArr [JStr "Honda"]).
Proof. reflexivity. Qed.

Example years_are_descending :
  respond ApiYears ∅
    (fresh (AllCars [Car (Some "2009"%string) "a" "b" (Some (Dec 1 0)) (Some (Dec 1 0));
                     Car (Some " 2021"%string) "a" "b" (Some (Dec 1 0)) (Some (Dec 1 0));
                     Car (Some "2009 "%string) "c" "d" (Some (Dec 1 0)) (Some (Dec 1 0));
                     Car (Some "2015"%string) "a" "b" (Some (Dec 1 0)) (Some (Dec 1 0))]))
  = ok (JArr [JInt 2021; JInt 2015; JInt 2009]).
Proof. reflexivity. Qed.

(** * Further properties of the code *)

(** ** The handle kept in [g] *)

(** X1. Within a request [get_db()] connects at most once: a second call
    finds the handle in [g] and reuses it, and after a failed connection
    nothing is retried. *)
Theorem get_db_connects_once (w : World) :
  (get_db;; get_db) w = get_db w
  /\ (forall w', get_db w = (inr tt, w') -> get_db w' = (inr tt, w')).
Proof.
  destruct w as [src g tr]. unfold mbind, Flask_bind, bind, get_db. simpl.
  destruct g, src; simpl; split; try reflexivity; intros w' [= <-]; reflexivity.
Qed.

Lemma serve_trace_shape ep args src g tr :
  exists evs,
    (serve ep args (Mk_World src g tr)).2 = Mk_World src false (tr ++ evs)
    /\ request_events src evs.
Proof.
  assert (Hquery : forall q, request_events src [EvConnect; EvExecute q; EvClose]).
  { intros q. right. right. left. by exists q. }
  assert (Hprint : forall q l,
             request_events src [EvConnect; EvExecute q; EvPrint l; EvClose]).
  { intros q l. right. right. right. by exists q, l. }
  assert (Hnone : (Mk_World src false tr) = Mk_World src false (tr ++ [])
                  /\ request_events src []).
  { split; [by rewrite app_nil_r|by left]. }
  assert (Hshape : forall {A} q (eval : list VehicleRecord -> A)
                     (k : A -> Flask Response) label fallback,
             (forall x, exists r, forall w', k x w' = (inr r, w')) ->
             exists evs,
               close_db
                 (try_except (get_db;; x ← db_execute q eval; k x)
                    (fun e => print label e;; mret fallback)
                    (Mk_World src false tr)).2
               = Mk_World src false (tr ++ evs)
               /\ request_events src evs).
  { intros A q eval k label fallback Hk. destruct src as [c|c|rows].
    - rewrite attempt_unopenable. eexists. split.
      + unfold close_db. simpl. by rewrite <- app_assoc.
      + right. left. by eexists _, _.
    - rewrite attempt_unqueryable. eexists. split; [|apply (Hprint q)].
      unfold close_db, set_g_db, emit. simpl. by rewrite <- !app_assoc.
    - destruct (decide (bindable q)) as [Hb|Hb].
      + rewrite attempt_table by done. destruct (Hk (eval rows)) as [r Hr].
        unfold try_except. rewrite Hr.
        eexists. split; [|apply (Hquery q)].
        unfold close_db, set_g_db, emit. simpl. by rewrite <- !app_assoc.
      + rewrite attempt_overflow by done. eexists. split; [|apply (Hprint q)].
        unfold close_db, set_g_db, emit. simpl. by rewrite <- !app_assoc. }
  destruct ep; unfold serve, view, set_g_db; simpl source; simpl trace.
  - unfold years.
    destruct (Hshape _ QYears Sql.select_years
                (fun rows => mret (ok (JArr (JInt <$> omap id rows))))
                "Error /api/years:"%string (Resp empty_list 500))
      as (evs & Hw & Hev); [intros x; eexists; intros w'; reflexivity|].
    exists evs. split; [|done]. rewrite <- Hw.
    by destruct (try_except _ _ _) as [[e|r] w'].
  - unfold makes. destruct (arg_int args "year") as [y|]; [|by exists []].
    destruct (Hshape _ (QMakes y) (Sql.select_makes y)
                (fun rows => mret (ok (JArr (JStr <$> rows))))
                "Error /api/makes:"%string (Resp empty_list 500))
      as (evs & Hw & Hev); [intros x; eexists; intros w'; reflexivity|].
    exists evs. split; [|done]. rewrite <- Hw.
    by destruct (try_except _ _ _) as [[e|r] w'].
  - unfold models.
    destruct (arg_int args "year") as [y|]; [|by exists []].
    destruct (truthy (arg_str args "make")) as [mk|]; [|by exists []].
    destruct (Hshape _ (QModels y mk) (Sql.select_models y mk)
                (fun rows => mret (ok (JArr (JStr <$> rows))))
                "Error /api/models:"%string (Resp empty_list 500))
      as (evs & Hw & Hev); [intros x; eexists; intros w'; reflexivity|].
    exists evs. split; [|done]. rewrite <- Hw.
    by destruct (try_except _ _ _) as [[e|r] w'].
  - unfold grade.
    destruct (arg_int args "year") as [y|]; [|by exists []].
    destruct (truthy (arg_str args "make")) as [mk|]; [|by exists []].
    destruct (truthy (arg_str args "model")) as [mo|]; [|by exists []].
    destruct (Hshape _ (QGrade y mk mo) (Sql.select_grade y mk mo)
                (fun row : option (option decimal * option decimal) =>
                   match row with
                   | None => mret (Resp (error "Not found") 404)
                   | Some (s, c) => mret (ok (grade_body y mk mo s c))
                   end)
                "Error /api/grade:"%string (Resp (error "Server error") 500))
      as (evs & Hw & Hev).
    { intros [[s c]|]; eexists; intros w'; reflexivity. }
    exists evs. split; [|done]. rewrite <- Hw.
    by destruct (try_except _ _ _) as [[e|r] w'].
Qed.

(** X2. Every request to a data endpoint leaves [g] without a handle and
    the data source as it was.  What it adds to the trace is nothing (the
    parameters were rejected), or one failed connection and its printed
    error, or one connection, one statement, possibly one printed error,
    and the closing of the handle: never two connections or statements,
    and every handle opened is closed, also on the error paths. *)
Theorem request_opens_and_closes_one_handle ep args w :
  g_db (serve ep args w).2 = false
  /\ source (serve ep args w).2 = source w
  /\ exists evs,
       trace (serve ep args w).2 = trace w ++ evs
       /\ request_events (source w) evs.
Proof.
  destruct w as [src g tr].
  destruct (serve_trace_shape ep args src g tr) as (evs & Hw & Hev).
  rewrite Hw. simpl. split; [done|]. split; [done|]. by exists evs.
Qed.

(** ** Which records an answer depends on *)

(** A record that is not gradeable takes part in no answer. *)
Lemma ungradeable_excluded ep args pre r post g tr :
  Score r = None \/ Certainty r = None ->
  respond ep args (Mk_World (AllCars (pre ++ r :: post)) g tr)
  = respond ep args (Mk_World (AllCars (pre ++ post)) g tr).
Proof.
  intros Hnull. rewrite !respond_answer. simpl source.
  assert (Hg : ~ Gradeable r).
  { intros [[s Hs] [c Hc]]. destruct Hnull; congruence. }
  assert (Hyears : Sql.select_years (pre ++ r :: post) = Sql.select_years (pre ++ post)).
  { unfold Sql.select_years. rewrite filter_drop; [done|].
    rewrite holds_where_years. tauto. }
  assert (Hmakes : forall y,
             Sql.select_makes y (pre ++ r :: post) = Sql.select_makes y (pre ++ post)).
  { intros y. unfold Sql.select_makes. rewrite filter_drop; [done|].
    rewrite holds_where_makes. tauto. }
  assert (Hmodels : forall y mk,
             Sql.select_models y mk (pre ++ r :: post)
             = Sql.select_models y mk (pre ++ post)).
  { intros y mk. unfold Sql.select_models. rewrite filter_drop; [done|].
    rewrite holds_where_models. tauto. }
  assert (Hgrade : forall y mk mo,
             Sql.select_grade y mk mo (pre ++ r :: post)
             = Sql.select_grade y mk mo (pre ++ post)).
  { intros y mk mo. unfold Sql.select_grade. rewrite filter_drop; [done|].
    rewrite holds_where_grade. unfold Matches. tauto. }
  destruct ep; simpl; unfold query.
  - by rewrite Hyears.
  - destruct (arg_int args "year"); [|done]. by rewrite Hmakes.
  - destruct (arg_int args "year"), (truthy (arg_str args "make")); try done.
    by rewrite Hmodels.
  - destruct (arg_int args "year"), (truthy (arg_str args "make")),
      (truthy (arg_str args "model")); try done.
    by rewrite Hgrade.
Qed.

(** X3. A record in which [Score], [Certainty] or [ModelYear] is NULL
    takes part in no answer: with or without it in the table, each of the
    four data endpoints gives the same response to every request. *)
Theorem null_field_record_is_invisible ep args pre r post g tr :
  Score r = None \/ Certainty r = None \/ ModelYear r = None ->
  respond ep args (Mk_World (AllCars (pre ++ r :: post)) g tr)
  = respond ep args (Mk_World (AllCars (pre ++ post)) g tr).
Proof.
  intros [H|[H|H]].
  - apply ungradeable_excluded. by left.
  - apply ungradeable_excluded. by right.
  - by apply absent_year_excluded.
Qed.

Lemma null_field_record_is_invisible_witness :
  respond ApiMakes (Sample.year_only "2018")
    (Mk_World (AllCars ([Sample.civic] ++ Sample.ungraded :: [Sample.accord])) false [])
  = respond ApiMakes (Sample.year_only "2018")
      (Mk_World (AllCars ([Sample.civic] ++ [Sample.accord])) false []).
Proof.
  apply (null_field_record_is_invisible ApiMakes (Sample.year_only "2018")
           [Sample.civic] Sample.ungraded [Sample.accord] false []).
  left. reflexivity.
Defined.

(** Two strictly ordered lists with the same elements are equal. *)
Lemma sorted_same_elements {A} (R : relation A)
    `{!Transitive R, !AntiSymm (=) R} (l1 l2 : list A) :
  StronglySorted R l1 -> StronglySorted R l2 -> NoDup l1 -> NoDup l2 ->
  (forall x, x ∈ l1 <-> x ∈ l2) -> l1 = l2.
Proof.
  intros Hs1 Hs2 Hn1 Hn2 Hel.
  apply (StronglySorted_unique R); [done..|]. by apply NoDup_Permutation.
Qed.

Global Instance int_ge_antisym : AntiSymm (=) (flip Sql.int_le).
Proof.
  intros [x|] [y|]; unfold flip; simpl; try done. intros ??. f_equal. lia.
Qed.

Lemma ordered_distinct_text_ext (l1 l2 : list string) :
  (forall x, x ∈ l1 <-> x ∈ l2) ->
  Sql.ORDER_BY_TEXT (Sql.DISTINCT l1) = Sql.ORDER_BY_TEXT (Sql.DISTINCT l2).
Proof.
  intros Hel. unfold Sql.ORDER_BY_TEXT, Sql.DISTINCT.
  apply (sorted_same_elements String.le).
  - apply StronglySorted_merge_sort; apply _.
  - apply StronglySorted_merge_sort; apply _.
  - rewrite merge_sort_Permutation. apply NoDup_remove_dups.
  - rewrite merge_sort_Permutation. apply NoDup_remove_dups.
  - intros x. by rewrite !merge_sort_Permutation, !elem_of_remove_dups.
Qed.

Lemma ordered_distinct_years_ext (l1 l2 : list (option Z)) :
  (forall x, x ∈ l1 <-> x ∈ l2) ->
  Sql.ORDER_BY_DESC (Sql.DISTINCT l1) = Sql.ORDER_BY_DESC (Sql.DISTINCT l2).
Proof.
  intros Hel. unfold Sql.ORDER_BY_DESC, Sql.DISTINCT.
  apply (sorted_same_elements (flip Sql.int_le)).
  - apply StronglySorted_merge_sort; apply _.
  - apply StronglySorted_merge_sort; apply _.
  - rewrite merge_sort_Permutation. apply NoDup_remove_dups.
  - rewrite merge_sort_Permutation. apply NoDup_remove_dups.
  - intros x. by rewrite !merge_sort_Permutation, !elem_of_remove_dups.
Qed.

Lemma fmap_filter_ext {B} (f : VehicleRecord -> B) (P : VehicleRecord -> Prop)
    `{forall r, Decision (P r)} (rows rows' : list VehicleRecord) :
  (forall r, r ∈ rows <-> r ∈ rows') ->
  forall x, x ∈ f <$> filter P rows <-> x ∈ f <$> filter P rows'.
Proof.
  intros Hel x. rewrite !list_elem_of_fmap.
  split; intros (r & -> & Hin); exists r; (split; [done|]);
    apply list_elem_of_filter in Hin as [HP Hin];
    apply list_elem_of_filter; (split; [done|]); by apply Hel.
Qed.

(** X4. The three list endpoints depend on the table only as a set of
    records: two tables with the same records, in any order and with any
    repetitions, get the same response to every request. *)
Theorem list_endpoints_ignore_order_and_repetition ep args rows rows' g tr :
  ep <> ApiGrade ->
  (forall r, r ∈ rows <-> r ∈ rows') ->
  respond ep args (Mk_World (AllCars rows) g tr)
  = respond ep args (Mk_World (AllCars rows') g tr).
Proof.
  intros Hep Hel. rewrite !respond_answer. simpl source.
  destruct ep; simpl; unfold query; [| | |done].
  - unfold Sql.select_years.
    by rewrite (ordered_distinct_years_ext _ _ (fmap_filter_ext _ _ _ _ Hel)).
  - destruct (arg_int args "year") as [y|]; [|done]. case_decide; [|done].
    unfold Sql.select_makes.
    by rewrite (ordered_distinct_text_ext _ _ (fmap_filter_ext _ _ _ _ Hel)).
  - destruct (arg_int args "year") as [y|],
      (truthy (arg_str args "make")) as [mk|]; try done.
    case_decide; [|done]. unfold Sql.select_models.
    by rewrite (ordered_distinct_text_ext _ _ (fmap_filter_ext _ _ _ _ Hel)).
Qed.

Lemma list_endpoints_ignore_order_and_repetition_witness :
  respond ApiModels (Sample.year_make "2018" "Honda")
    (Mk_World (AllCars [Sample.civic; Sample.accord; Sample.civic]) false [])
  = respond ApiModels (Sample.year_make "2018" "Honda")
      (Mk_World (AllCars [Sample.accord; Sample.civic]) false []).
Proof.
  apply (list_endpoints_ignore_order_and_repetition ApiModels
           (Sample.year_make "2018" "Honda")
           [Sample.civic; Sample.accord; Sample.civic]
           [Sample.accord; Sample.civic] false []).
  - discriminate.
  - intros r. rewrite !elem_of_cons, !elem_of_nil. tauto.
Defined.

(** [grade()] does depend on the order: the first match wins. *)
Example grade_depends_on_order :
  let low := Car (Some "2018"%string) "Honda" "Civic" (Some (Dec 10 1)) (Some (Dec 10 1)) in
  respond ApiGrade (Sample.request "2018" "Honda" "Civic")
    (fresh (AllCars [Sample.civic; low]))
  <> respond ApiGrade (Sample.request "2018" "Honda" "Civic")
       (fresh (AllCars [low; Sample.civic])).
Proof. vm_compute. discriminate. Qed.

(** X5. Records appended to the table never change a successful
    [/api/grade] answer: the first match stays the first match. *)
Theorem appended_records_keep_grade args rows more g tr :
  status (respond ApiGrade args (Mk_World (AllCars rows) g tr)) = 200 ->
  respond ApiGrade args (Mk_World (AllCars (rows ++ more)) g tr)
  = respond ApiGrade args (Mk_World (AllCars rows) g tr).
Proof.
  rewrite !respond_answer. simpl source. simpl. unfold query.
  destruct (arg_int args "year") as [y|],
    (truthy (arg_str args "make")) as [mk|],
    (truthy (arg_str args "model")) as [mo|]; try done.
  case_decide; [|done].
  unfold Sql.select_grade, Sql.LIMIT1. rewrite filter_app, fmap_app.
  destruct (filter _ rows) as [|x rest]; simpl; [discriminate|done].
Qed.

Lemma appended_records_keep_grade_witness :
  respond ApiGrade (Sample.request "2018" "Honda" "Civic")
    (Mk_World (AllCars (Sample.table ++ [Sample.unknown_year])) false [])
  = respond ApiGrade (Sample.request "2018" "Honda" "Civic")
      (Mk_World (AllCars Sample.table) false []).
Proof.
  apply (appended_records_keep_grade (Sample.request "2018" "Honda" "Civic")
           Sample.table [Sample.unknown_year] false []).
  reflexivity.
Defined.

(** ** The cascade of filters *)

Lemma JInt_listed y (l : list Z) : JInt y ∈ JInt <$> l <-> y ∈ l.
Proof.
  rewrite list_elem_of_fmap. split.
  - by intros (x & [= ->] & Hin).
  - intros Hin. by exists y.
Qed.

Lemma JStr_listed s (l : list string) : JStr s ∈ JStr <$> l <-> s ∈ l.
Proof.
  rewrite list_elem_of_fmap. split.
  - by intros (x & [= ->] & Hin).
  - intros Hin. by exists s.
Qed.

Lemma listed_year args w y :
  JInt y ∈ items_of (body (respond ApiYears args w))
  <-> exists rows, source w = AllCars rows /\ y ∈ omap id (Sql.select_years rows).
Proof.
  rewrite respond_answer. simpl. unfold query.
  destruct (source w) as [c|c|rows]; simpl.
  - rewrite elem_of_nil. split; [done|]. by intros (rows & [=] & _).
  - rewrite elem_of_nil. split; [done|]. by intros (rows & [=] & _).
  - rewrite JInt_listed. split; [by exists rows|]. by intros (rows' & [= <-] & ?).
Qed.

Lemma listed_make args w m :
  JStr m ∈ items_of (body (respond ApiMakes args w))
  <-> exists y rows, arg_int args "year" = Some y /\ source w = AllCars rows
                     /\ m ∈ Sql.select_makes y rows.
Proof.
  rewrite respond_answer. simpl. unfold query.
  destruct (arg_int args "year") as [y|]; simpl;
    [|rewrite elem_of_nil; split; [done|]; by intros (y & rows & [=] & _)].
  destruct (source w) as [c|c|rows]; simpl.
  - rewrite elem_of_nil. split; [done|]. by intros (y' & rows & _ & [=] & _).
  - rewrite elem_of_nil. split; [done|]. by intros (y' & rows & _ & [=] & _).
  - case_decide as Hb; simpl.
    + rewrite JStr_listed. split; [by exists y, rows|].
      by intros (y' & rows' & [= <-] & [= <-] & ?).
    + rewrite elem_of_nil. split; [done|].
      intros (y' & rows' & [= <-] & [= <-] & Hin).
      apply elem_of_select_makes in Hin as (r & _ & _ & Hy & _).
      apply Hb, bindable_QMakes. by apply stored_year_fits in Hy.
Qed.

Lemma listed_model args w mo :
  JStr mo ∈ items_of (body (respond ApiModels args w))
  <-> exists y mk rows,
        arg_int args "year" = Some y /\ arg_str args "make" = Some mk
        /\ mk <> EmptyString /\ source w = AllCars rows
        /\ mo ∈ Sql.select_models y mk rows.
Proof.
  rewrite respond_answer. simpl. unfold query.
  destruct (arg_int args "year") as [y|]; simpl;
    [|rewrite elem_of_nil; split; [done|]; by intros (y & mk & rows & [=] & _)].
  destruct (truthy (arg_str args "make")) as [mk|] eqn:Hmk; simpl.
  2:{ rewrite elem_of_nil. split; [done|].
      intros (y' & mk & rows & _ & Hs & Hne & _).
      assert (truthy (arg_str args "make") = Some mk) by by apply truthy_Some.
      congruence. }
  apply truthy_Some in Hmk as [Hmk Hne].
  destruct (source w) as [c|c|rows]; simpl.
  - rewrite elem_of_nil. split; [done|].
    by intros (y' & mk' & rows & _ & _ & _ & [=] & _).
  - rewrite elem_of_nil. split; [done|].
    by intros (y' & mk' & rows & _ & _ & _ & [=] & _).
  - case_decide as Hb; simpl.
    + rewrite JStr_listed. split; [by exists y, mk, rows|].
      intros (y' & mk' & rows' & [= <-] & Hmk' & _ & [= <-] & ?).
      rewrite Hmk in Hmk'. by injection Hmk' as <-.
    + rewrite elem_of_nil. split; [done|].
      intros (y' & mk' & rows' & [= <-] & _ & _ & [= <-] & Hin).
      apply elem_of_select_models in Hin as (r & _ & _ & Hy & _).
      apply Hb, bindable_QModels. by apply stored_year_fits in Hy.
Qed.

Lemma grade_succeeds args w :
  status (respond ApiGrade args w) = 200
  <-> exists y mk mo rows r,
        well_formed args y mk mo /\ source w = AllCars rows
        /\ r ∈ rows /\ Matches y mk mo r.
Proof.
  split.
  - intros Hok. destruct (missing_or_well_formed args) as [Hm|(y & mk & mo & Hw)].
    { rewrite respond_grade_missing in Hok by done. discriminate. }
    destruct (grade_status_200 args w y mk mo Hw Hok)
      as (rows & s & c & Hsrc & Hfit & Hsel & _).
    apply select_grade_Some in Hsel as (pre & r & post & -> & Hm & _).
    exists y, mk, mo, (pre ++ r :: post), r. repeat (split; [done|]).
    split; [|done]. apply elem_of_app. right. by left.
  - intros (y & mk & mo & rows & r & Hw & Hsrc & Hin & Hm).
    assert (Hfit : Text.fits_int64 y).
    { destruct Hm as (_ & Hy & _). by apply stored_year_fits in Hy. }
    rewrite (respond_grade_executed args w y mk mo rows) by done.
    destruct (Sql.select_grade y mk mo rows) as [[s c]|] eqn:Hsel; [done|].
    exfalso. by apply (proj1 (select_grade_None y mk mo rows) Hsel r).
Qed.

(** X6. Every year that [/api/years] lists has a make: asked for that
    year, [/api/makes] answers 200 with a non-empty list. *)
Theorem listed_year_has_makes args w y :
  JInt y ∈ items_of (body (respond ApiYears args w)) ->
  arg_int args "year" = Some y ->
  status (respond ApiMakes args w) = 200
  /\ exists m, JStr m ∈ items_of (body (respond ApiMakes args w)).
Proof.
  intros Hy Harg. apply listed_year in Hy as (rows & Hsrc & Hy).
  apply elem_of_select_years in Hy as (r & Hin & Hg & _ & Hyr).
  split.
  - destruct w as [src g tr]. simpl in Hsrc. subst src. unfold respond.
    rewrite (serve_makes_table _ y); [done..|]. by apply stored_year_fits in Hyr.
  - exists (Make r). apply listed_make. exists y, rows.
    repeat (split; [done|]). apply elem_of_select_makes. by exists r.
Qed.

Lemma listed_year_has_makes_witness :
  status (respond ApiMakes (Sample.year_only "2018") (fresh (AllCars Sample.table)))
  = 200
  /\ exists m, JStr m ∈ items_of (body (respond ApiMakes (Sample.year_only "2018")
                                          (fresh (AllCars Sample.table)))).
Proof.
  apply (listed_year_has_makes (Sample.year_only "2018")
           (fresh (AllCars Sample.table)) 2018).
  - vm_compute. left.
  - reflexivity.
Defined.

(** X7. Every non-empty make that [/api/makes] lists for a year has a
    model: asked for that year and make, [/api/models] answers with a
    non-empty list.  (An empty make is listed like any other, and
    [/api/models] rejects it.) *)
Theorem listed_make_has_models args w mk :
  JStr mk ∈ items_of (body (respond ApiMakes args w)) ->
  arg_str args "make" = Some mk -> mk <> EmptyString ->
  exists mo, JStr mo ∈ items_of (body (respond ApiModels args w)).
Proof.
  intros Hmk Harg Hne. apply listed_make in Hmk as (y & rows & Hy & Hsrc & Hmk).
  apply elem_of_select_makes in Hmk as (r & Hin & Hg & Hyr & Hmake).
  exists (Model r). apply listed_model. exists y, mk, rows.
  repeat (split; [done|]). apply elem_of_select_models. by exists r.
Qed.

Lemma listed_make_has_models_witness :
  exists mo, JStr mo ∈ items_of (body (respond ApiModels (Sample.year_make "2018" "Honda")
                                         (fresh (AllCars Sample.table)))).
Proof.
  apply (listed_make_has_models (Sample.year_make "2018" "Honda")
           (fresh (AllCars Sample.table)) "Honda"%string).
  - vm_compute. left.
  - reflexivity.
  - discriminate.
Defined.

(** An empty make is offered by [/api/makes] and leads nowhere. *)
Example empty_make_is_listed_and_rejected :
  let rows := [Car (Some "2018"%string) EmptyString "Civic"
                 (Some (Dec 783 2)) (Some (Dec 426 2))] in
  respond ApiMakes (Sample.year_empty_make "2018") (fresh (AllCars rows))
  = ok (JArr [JStr EmptyString])
  /\ respond ApiModels (Sample.year_empty_make "2018") (fresh (AllCars rows))
     = ok (JArr []).
Proof. split; reflexivity. Qed.

(** X8. Every non-empty model that [/api/models] lists for a year and a
    make has a grade: asked for that year, make and model, [/api/grade]
    answers 200. *)
Theorem listed_model_has_grade args w mo :
  JStr mo ∈ items_of (body (respond ApiModels args w)) ->
  arg_str args "model" = Some mo -> mo <> EmptyString ->
  status (respond ApiGrade args w) = 200.
Proof.
  intros Hmo Harg Hne.
  apply listed_model in Hmo as (y & mk & rows & Hy & Hmk & Hmkne & Hsrc & Hmo).
  apply elem_of_select_models in Hmo as (r & Hin & Hg & Hyr & Hmake & Hmodel).
  apply grade_succeeds. exists y, mk, mo, rows, r.
  split; [by unfold well_formed|]. split; [done|]. split; [done|].
  by unfold Matches.
Qed.

Lemma listed_model_has_grade_witness :
  status (respond ApiGrade (Sample.request "2018" "Honda" "Accord")
            (fresh (AllCars Sample.table))) = 200.
Proof.
  apply (listed_model_has_grade (Sample.request "2018" "Honda" "Accord")
           (fresh (AllCars Sample.table)) "Accord"%string).
  - vm_compute. left.
  - reflexivity.
  - discriminate.
Defined.

(** X9. A grade is only found for what the lists offer: when
    [/api/grade] answers 200, the make is listed by [/api/makes] and the
    model by [/api/models] for the same request, and the year is listed
    by [/api/years] unless it is 0 (the year a blank text converts to,
    which only [/api/years] leaves out). *)
Theorem graded_combination_is_listed args w :
  status (respond ApiGrade args w) = 200 ->
  exists y mk mo,
    well_formed args y mk mo
    /\ JStr mk ∈ items_of (body (respond ApiMakes args w))
    /\ JStr mo ∈ items_of (body (respond ApiModels args w))
    /\ (y <> 0 -> JInt y ∈ items_of (body (respond ApiYears args w))).
Proof.
  intros Hok.
  apply grade_succeeds in Hok as (y & mk & mo & rows & r & Hw & Hsrc & Hin & Hm).
  exists y, mk, mo. split; [done|].
  destruct Hw as (Hy & Hmk & Hmkne & Hmo & Hmone).
  destruct Hm as (Hg & Hyr & Hmake & Hmodel).
  split; [|split].
  - apply listed_make. exists y, rows. repeat (split; [done|]).
    apply elem_of_select_makes. by exists r.
  - apply listed_model. exists y, mk, rows. repeat (split; [done|]).
    apply elem_of_select_models. by exists r.
  - intros Hnz. apply listed_year. exists rows. split; [done|].
    apply elem_of_select_years. exists r. repeat (split; [done|]).
    split; [|done]. unfold year_text_present.
    unfold stored_year, Sql.CAST_INTEGER, Sql.TRIM in Hyr.
    destruct (ModelYear r) as [s|]; [|discriminate]. simpl in Hyr.
    exists s. split; [done|]. intros Hblank. rewrite Hblank in Hyr.
    apply Hnz. by injection Hyr as <-.
Qed.

Lemma graded_combination_is_listed_witness :
  exists y mk mo,
    well_formed (Sample.request "2018" "Honda" "Civic") y mk mo
    /\ JStr mk ∈ items_of (body (respond ApiMakes (Sample.request "2018" "Honda" "Civic")
                                   (fresh (AllCars Sample.table))))
    /\ JStr mo ∈ items_of (body (respond ApiModels (Sample.request "2018" "Honda" "Civic")
                                   (fresh (AllCars Sample.table))))
    /\ (y <> 0 ->
        JInt y ∈ items_of (body (respond ApiYears (Sample.request "2018" "Honda" "Civic")
                                   (fresh (AllCars Sample.table))))).
Proof.
  apply (graded_combination_is_listed (Sample.request "2018" "Honda" "Civic")
           (fresh (AllCars Sample.table))).
  reflexivity.
Defined.

(** The year 0 of a blank text is graded and not listed. *)
Example blank_year_is_graded_and_not_listed :
  status (respond ApiGrade (Sample.request "0" "Kia" "Rio")
            (fresh (AllCars [Sample.blank_year]))) = 200
  /\ respond ApiYears (Sample.request "0" "Kia" "Rio")
       (fresh (AllCars [Sample.blank_year])) = ok (JArr []).
Proof. split; reflexivity. Qed.

(** ** The shapes of the responses *)

(** X10. A list endpoint never answers anything but a JSON array, of
    integers for [/api/years] and of texts for the two others, with
    status 200 or, with status 500, empty.  [/api/grade] answers 200, or
    one of 400, 404 and 500 with an object whose only field is [error]
    and whose message is the fixed one of that status. *)
Theorem response_shapes ep args w :
  match ep with
  | ApiYears =>
      exists ys : list Z,
        body (respond ep args w) = JArr (JInt <$> ys)
        /\ (status (respond ep args w) = 200
            \/ status (respond ep args w) = 500 /\ ys = [])
  | ApiMakes | ApiModels =>
      exists ss : list string,
        body (respond ep args w) = JArr (JStr <$> ss)
        /\ (status (respond ep args w) = 200
            \/ status (respond ep args w) = 500 /\ ss = [])
  | ApiGrade =>
      status (respond ep args w) = 200
      \/ respond ep args w = Resp (error "Missing params") 400
      \/ respond ep args w = Resp (error "Not found") 404
      \/ respond ep args w = Resp (error "Server error") 500
  end.
Proof.
  rewrite respond_answer.
  assert (Hq : forall {A} q (eval : list VehicleRecord -> A) (f : A -> list string),
             exists ss : list string,
               body (query (source w) q eval (fun x => ok (JArr (JStr <$> f x)))
                       (Resp empty_list 500)) = JArr (JStr <$> ss)
               /\ (status (query (source w) q eval
                             (fun x => ok (JArr (JStr <$> f x)))
                             (Resp empty_list 500)) = 200
                   \/ status (query (source w) q eval
                                (fun x => ok (JArr (JStr <$> f x)))
                                (Resp empty_list 500)) = 500 /\ ss = [])).
  { intros A q eval f. unfold query. destruct (source w) as [c|c|rows].
    - exists []. auto.
    - exists []. auto.
    - case_decide; [exists (f (eval rows))|exists []]; auto. }
  destruct ep; simpl.
  - unfold query. destruct (source w) as [c|c|rows].
    + exists []. auto.
    + exists []. auto.
    + case_decide; [exists (omap id (Sql.select_years rows))|exists []]; auto.
  - destruct (arg_int args "year") as [y|]; [|exists []; auto].
    apply (Hq _ (QMakes y) (Sql.select_makes y) id).
  - destruct (arg_int args "year") as [y|],
      (truthy (arg_str args "make")) as [mk|]; try (exists []; by auto).
    apply (Hq _ (QModels y mk) (Sql.select_models y mk) id).
  - destruct (arg_int args "year") as [y|],
      (truthy (arg_str args "make")) as [mk|],
      (truthy (arg_str args "model")) as [mo|]; auto.
    unfold query. destruct (source w) as [c|c|rows]; auto.
    case_decide; auto.
    destruct (Sql.select_grade y mk mo rows) as [[s c]|]; simpl; auto.
Qed.

(** ** The connection URI *)


Lemma length_bytes s : List.length (Uri.bytes s) = String.length s.
Proof. induction s as [|c s IH]; simpl; [done|]. by rewrite IH. Qed.





Example db_uri_windows :
  Uri.db_uri (String "C" (String ":" (String Uri.backslash "db")))
  = "file:C:/db?mode=ro"%string.
Proof. reflexivity. Qed.

(** ** The diagnostics view *)

Lemma health_serve_table P names rows g tr :
  "AllCars"%string ∈ names ->
  Health.serve P names (Mk_World (AllCars rows) g tr)
  = (Health.Mk_Reply
       (Health.Healthy
          (Health.Mk_Report P names true (Health.count_all rows)
             (Health.count_ready rows))) 200,
     Mk_World (AllCars rows) false ((tr ++ [EvConnect]) ++ [EvClose])).
Proof.
  intros Hin. unfold Health.serve, Health.request, Health.view, try_except,
    get_db, Health.read_master, Health.fetch_allcars.
  unfold mbind, mret, Flask_bind, Flask_ret, bind, ret. simpl.
  rewrite bool_decide_eq_true_2 by done. reflexivity.
Qed.

Lemma health_serve_no_table P names src g tr :
  "AllCars"%string ∉ names -> (forall c, src <> Unopenable c) ->
  Health.serve P names (Mk_World src g tr)
  = (Health.Mk_Reply
       (Health.Healthy (Health.Mk_Report P names false 0 0)) 200,
     Mk_World src false ((tr ++ [EvConnect]) ++ [EvClose])).
Proof.
  intros Hin Hopen. unfold Health.serve, Health.request, Health.view, try_except,
    get_db, Health.read_master, Health.fetch_allcars.
  unfold mbind, mret, Flask_bind, Flask_ret, bind, ret. simpl.
  rewrite bool_decide_eq_false_2 by done.
  destruct src as [c|c|rows]; [by destruct (Hopen c)|reflexivity..].
Qed.

Lemma health_serve_unopenable P names c g tr :
  Health.serve P names (Mk_World (Unopenable c) g tr)
  = (Health.Mk_Reply (Health.Failed c P) 500,
     Mk_World (Unopenable c) false (tr ++ [EvConnect])).
Proof. reflexivity. Qed.

Lemma health_serve_unqueryable P names c g tr :
  "AllCars"%string ∈ names ->
  Health.serve P names (Mk_World (Unqueryable c) g tr)
  = (Health.Mk_Reply (Health.Failed c P) 500,
     Mk_World (Unqueryable c) false ((tr ++ [EvConnect]) ++ [EvClose])).
Proof.
  intros Hin. unfold Health.serve, Health.request, Health.view, try_except,
    get_db, Health.read_master, Health.fetch_allcars.
  unfold mbind, mret, Flask_bind, Flask_ret, bind, ret. simpl.
  rewrite bool_decide_eq_true_2 by done. reflexivity.
Qed.

Lemma count_ready_zero rows :
  Health.count_ready rows = 0 <-> forall r, r ∈ rows -> ~ Gradeable r.
Proof.
  unfold Health.count_ready. split.
  - intros H r Hin Hg.
    assert (Hr : r ∈ filter (fun r => Sql.holds (Sql.gradeable r)) rows).
    { apply list_elem_of_filter. split; [by apply holds_gradeable|done]. }
    destruct (filter _ rows); [by apply elem_of_nil in Hr|]. simpl in H. lia.
  - intros H. destruct (filter _ rows) as [|x l] eqn:Hf; [done|]. exfalso.
    assert (Hx : x ∈ filter (fun r => Sql.holds (Sql.gradeable r)) rows)
      by (rewrite Hf; by left).
    apply list_elem_of_filter in Hx as [Hg Hin].
    apply (H x Hin). by apply holds_gradeable.
Qed.




Example health_of_sample :
  (Health.serve "cars.db" ["Log"%string; "AllCars"%string]
     (fresh (AllCars Sample.table))).1
  = Health.Mk_Reply
      (Health.Healthy
         (Health.Mk_Report "cars.db" ["Log"%string; "AllCars"%string] true 5 4))
      200.
Proof. reflexivity. Qed.

Lemma filter_none {A} (P : A -> Prop) `{forall x, Decision (P x)} (l : list A) :
  (forall x, x ∈ l -> ~ P x) -> filter P l = [].
Proof.
  induction l as [|a l IH]; intros Hno; [done|].
  rewrite filter_cons_False by (apply Hno; by left).
  apply IH. intros x Hx. apply Hno. by right.
Qed.

Lemma health_healthy_inv P names w rep :
  (Health.serve P names w).1 = Health.Mk_Reply (Health.Healthy rep) 200 ->
  Health.allcars_exists rep = true ->
  exists rows, source w = AllCars rows
               /\ Health.with_score_certainty rep = Health.count_ready rows.
Proof.
  destruct w as [src g tr]. intros Hrep Hex.
  destruct (decide ("AllCars"%string ∈ names)) as [Hin|Hin].
  - destruct src as [c|c|rows].
    + rewrite health_serve_unopenable in Hrep. discriminate.
    + rewrite health_serve_unqueryable in Hrep by done. discriminate.
    + rewrite health_serve_table in Hrep by done. simpl in Hrep.
      injection Hrep as <-. by exists rows.
  - destruct src as [c|c|rows].
    + rewrite health_serve_unopenable in Hrep. discriminate.
    + rewrite health_serve_no_table in Hrep by done. simpl in Hrep.
      injection Hrep as <-. discriminate.
    + rewrite health_serve_no_table in Hrep by done. simpl in Hrep.
      injection Hrep as <-. discriminate.
Qed.

(** X13. When [/api/health] reports that [AllCars] exists and that no
    record has both numbers, the lookups have nothing to offer: every
    list endpoint answers an empty list and [/api/grade] never answers
    200. *)
Theorem health_zero_means_no_answers P names w rep ep args :
  (Health.serve P names w).1 = Health.Mk_Reply (Health.Healthy rep) 200 ->
  Health.allcars_exists rep = true ->
  Health.with_score_certainty rep = 0 ->
  items_of (body (respond ep args w)) = []
  /\ status (respond ApiGrade args w) <> 200.
Proof.
  intros Hrep Hex Hzero.
  destruct (health_healthy_inv P names w rep Hrep Hex) as (rows & Hsrc & Hc).
  rewrite Hc in Hzero. pose proof (proj1 (count_ready_zero rows) Hzero) as Hno.
  assert (Hempty : forall (Q : VehicleRecord -> Prop) `{forall r, Decision (Q r)},
             (forall r, Q r -> Gradeable r) -> filter Q rows = []).
  { intros Q HQ Himp. apply filter_none.
    intros r Hin HQr. by apply (Hno r Hin), Himp. }
  split.
  - rewrite respond_answer, Hsrc. destruct ep; simpl; unfold query.
    + unfold Sql.select_years. rewrite Hempty; [done|].
      intros r Hr. by apply holds_where_years in Hr as [Hg _].
    + destruct (arg_int args "year") as [y|]; [|done]. case_decide; [|done].
      unfold Sql.select_makes. rewrite Hempty; [done|].
      intros r Hr. by apply holds_where_makes in Hr as [Hg _].
    + destruct (arg_int args "year") as [y|],
        (truthy (arg_str args "make")) as [mk|]; try done.
      case_decide; [|done].
      unfold Sql.select_models. rewrite Hempty; [done|].
      intros r Hr. by apply holds_where_models in Hr as [Hg _].
    + destruct (arg_int args "year") as [y|],
        (truthy (arg_str args "make")) as [mk|],
        (truthy (arg_str args "model")) as [mo|]; try done.
      case_decide; [|done].
      by destruct (Sql.select_grade y mk mo rows) as [[??]|].
  - intros Hok.
    apply grade_succeeds in Hok as (y & mk & mo & rows' & r & _ & Hsrc' & Hin & Hm).
    rewrite Hsrc in Hsrc'. injection Hsrc' as <-.
    destruct Hm as (Hg & _). by apply (Hno r).
Qed.

Lemma health_zero_means_no_answers_witness :
  items_of (body (respond ApiYears ∅ (fresh (AllCars [Sample.ungraded])))) = []
  /\ status (respond ApiGrade ∅ (fresh (AllCars [Sample.ungraded]))) <> 200.
Proof.
  apply (health_zero_means_no_answers "cars.db" ["AllCars"%string]
           (fresh (AllCars [Sample.ungraded]))
           (Health.Mk_Report "cars.db" ["AllCars"%string] true 1 0) ApiYears ∅);
    reflexivity.
Defined.

(** X14. When the file opens and its catalogue lists no table named
    exactly [AllCars], [/api/health] answers 200 with [allcars_exists]
    false and both counts 0, whatever state the table is in: no statement
    on [AllCars] is sent, so also a source on which every data endpoint
    answers 500 is reported with status 200. *)
Theorem health_without_table P names w :
  "AllCars"%string ∉ names -> (forall c, source w <> Unopenable c) ->
  (Health.serve P names w).1
  = Health.Mk_Reply (Health.Healthy (Health.Mk_Report P names false 0 0)) 200
  /\ (forall c args, source w = Unqueryable c ->
        respond ApiYears args w = Resp empty_list 500).
Proof.
  intros Hin Hopen. destruct w as [src g tr]. simpl in Hopen. split.
  - by rewrite health_serve_no_table.
  - intros c args Hsrc. apply respond_years_fails. simpl in *. by subst src.
Qed.

Lemma health_without_table_witness :
  (Health.serve "cars.db" ["Log"%string] (fresh (Unqueryable "no such table: AllCars"))).1
  = Health.Mk_Reply
      (Health.Healthy (Health.Mk_Report "cars.db" ["Log"%string] false 0 0)) 200
  /\ (forall c args, source (fresh (Unqueryable "no such table: AllCars")) = Unqueryable c ->
        respond ApiYears args (fresh (Unqueryable "no such table: AllCars"))
        = Resp empty_list 500).
Proof.
  apply (health_without_table "cars.db" ["Log"%string]
           (fresh (Unqueryable "no such table: AllCars"))).
  - rewrite list_elem_of_singleton. discriminate.
  - intros c. discriminate.
Defined.

Lemma health_request_unreadable P c src g tr :
  (forall c', src <> Unopenable c') ->
  Health.request P (inl c) (Mk_World src g tr)
  = (Health.Mk_Reply (Health.Failed c P) 500,
     Mk_World src false ((tr ++ [EvConnect]) ++ [EvClose])).
Proof.
  intros Hopen. unfold Health.request, Health.view, try_except, get_db,
    Health.read_master.
  unfold mbind, mret, Flask_bind, Flask_ret, bind, ret. simpl.
  destruct src as [c'|c'|rows]; [by destruct (Hopen c')|reflexivity..].
Qed.

(** X15. [/api/health] answers 200 or 500.  It answers 500 exactly when
    the file does not open, or it opens and its catalogue cannot be
    read, or the catalogue lists [AllCars] and the table cannot be
    queried; the body then carries the message of the exception and the
    configured path, which the data endpoints never disclose. *)
Theorem health_failure_discloses_cause P catalogue w :
  (Health.code (Health.request P catalogue w).1 = 200
   \/ Health.code (Health.request P catalogue w).1 = 500)
  /\ (Health.code (Health.request P catalogue w).1 = 500
      <-> (exists c, source w = Unopenable c)
          \/ (exists c, catalogue = inl c)
          \/ (exists names c, catalogue = inr names
                /\ "AllCars"%string ∈ names /\ source w = Unqueryable c))
  /\ (forall c,
        source w = Unopenable c
        \/ ((forall c', source w <> Unopenable c') /\ catalogue = inl c)
        \/ (exists names, catalogue = inr names
              /\ "AllCars"%string ∈ names /\ source w = Unqueryable c) ->
        (Health.request P catalogue w).1
        = Health.Mk_Reply (Health.Failed c P) 500).
Proof.
  destruct w as [src g tr]. simpl source.
  destruct catalogue as [e|names].
  - destruct src as [c|c|rows].
    + change (Health.request P (inl e) (Mk_World (Unopenable c) g tr))
        with (Health.Mk_Reply (Health.Failed c P) 500,
              Mk_World (Unopenable c) false (tr ++ [EvConnect])).
      simpl. split; [by right|]. split.
      * split; [|done]. intros _. left. by exists c.
      * intros c' [[= <-]|[[Hopen _]|(names & [=] & _)]]; [done|].
        by destruct (Hopen c).
    + rewrite health_request_unreadable by done. simpl. split; [by right|]. split.
      * split; [|done]. intros _. right. left. by exists e.
      * by intros c' [[=]|[[_ [= <-]]|(names & [=] & _)]].
    + rewrite health_request_unreadable by done. simpl. split; [by right|]. split.
      * split; [|done]. intros _. right. left. by exists e.
      * by intros c' [[=]|[[_ [= <-]]|(names & [=] & _)]].
  - change (Health.request P (inr names)) with (Health.serve P names).
    destruct (decide ("AllCars"%string ∈ names)) as [Hin|Hin];
      destruct src as [c|c|rows].
    + rewrite health_serve_unopenable. simpl. split; [by right|]. split.
      * split; [|done]. intros _. left. by exists c.
      * intros c' [[= <-]|[[Hopen _]|(names' & _ & _ & [=])]]; [done|].
        by destruct (Hopen c).
    + rewrite health_serve_unqueryable by done. simpl. split; [by right|]. split.
      * split; [|done]. intros _. right. right. by exists names, c.
      * by intros c' [[=]|[[_ [=]]|(names' & _ & _ & [= <-])]].
    + rewrite health_serve_table by done. simpl. split; [by left|]. split.
      * split; [discriminate|].
        by intros [[c [=]]|[[c [=]]|(names' & c & _ & _ & [=])]].
      * by intros c' [[=]|[[_ [=]]|(names' & _ & _ & [=])]].
    + rewrite health_serve_unopenable. simpl. split; [by right|]. split.
      * split; [|done]. intros _. left. by exists c.
      * intros c' [[= <-]|[[Hopen _]|(names' & _ & _ & [=])]]; [done|].
        by destruct (Hopen c).
    + rewrite health_serve_no_table by done. simpl. split; [by left|]. split.
      * split; [discriminate|].
        intros [[c' [=]]|[[c' [=]]|(names' & c' & [= <-] & Hin' & _)]]. done.
      * intros c' [[=]|[[_ [=]]|(names' & [= <-] & Hin' & _)]]. done.
    + rewrite health_serve_no_table by done. simpl. split; [by left|]. split.
      * split; [discriminate|].
        intros [[c' [=]]|[[c' [=]]|(names' & c' & [= <-] & Hin' & _)]]. done.
      * intros c' [[=]|[[_ [=]]|(names' & [= <-] & Hin' & _)]]. done.
Qed.

Example health_not_a_database :
  (Health.request "cars.db" (inl "file is not a database"%string)
     (fresh (Unqueryable "file is not a database"))).1
  = Health.Mk_Reply (Health.Failed "file is not a database" "cars.db") 500.
Proof. reflexivity. Qed.

Example health_discloses :
  (Health.serve "C:/data/cars.db" [] (fresh (Unopenable "unable to open database file"))).1
  = Health.Mk_Reply
      (Health.Failed "unable to open database file" "C:/data/cars.db") 500
  /\ respond ApiYears ∅ (fresh (Unopenable "unable to open database file"))
     = Resp (JArr []) 500.
Proof. split; reflexivity. Qed.


(** ** The lists and the grade on tables with clean year texts *)

(** X17. On a table whose gradeable records have a year text that is
    absent or a numeral of a signed 64-bit integer, [/api/years] answers
    200 with exactly the integers that the year text of some gradeable
    record parses to, in strictly descending order and without
    duplicates. *)
Theorem years_exact_on_clean_table args rows g tr :
  clean_years rows ->
  exists ys : list Z,
    respond ApiYears args (Mk_World (AllCars rows) g tr) = ok (JArr (JInt <$> ys))
    /\ (forall y, y ∈ ys <->
          exists r, r ∈ rows /\ Gradeable r
                    /\ Spec.parsed_year (ModelYear r) = Some y)
    /\ strictly_descending ys /\ NoDup ys.
Proof.
  intros Hclean. exists (omap id (Sql.select_years rows)).
  assert (Hsorted : strictly_descending (omap id (Sql.select_years rows)))
    by apply ordered_distinct_years.
  split; [|split; [|split]].
  - unfold respond. by rewrite serve_years_table.
  - intros y. rewrite elem_of_select_years. split.
    + intros (r & Hin & Hg & _ & Hy). exists r. split; [done|]. split; [done|].
      by apply (clean_stored_year rows).
    + intros (r & Hin & Hg & Hy). exists r. split; [done|]. split; [done|].
      split; [by apply (parsed_year_present r y)|].
      by apply (clean_stored_year rows).
  - exact Hsorted.
  - by apply strictly_descending_NoDup.
Qed.

Lemma years_exact_on_clean_table_witness :
  (exists ys : list Z,
     respond ApiYears ∅ (Mk_World (AllCars Sample.table) false [])
     = ok (JArr (JInt <$> ys))
     /\ (forall y, y ∈ ys <->
           exists r, r ∈ Sample.table /\ Gradeable r
                     /\ Spec.parsed_year (ModelYear r) = Some y)
     /\ strictly_descending ys /\ NoDup ys)
  /\ respond ApiYears ∅ (Mk_World (AllCars Sample.table) false [])
     = ok (JArr [JInt 2018]).
Proof.
  split.
  - apply (years_exact_on_clean_table ∅ Sample.table false []).
    apply sample_table_clean.
  - reflexivity.
Defined.

(** X18. Without a year that parses as an integer [/api/makes] answers
    the empty list and leaves the data source alone.  With a year within
    the signed 64-bit range, on a table with clean year texts, it
    answers 200 with exactly the [Make] values of the gradeable records
    whose year text parses to that year, each once, in strictly
    ascending byte-wise order; with a year outside that range it answers
    500 with the empty list. *)
Theorem makes_exact_on_clean_table args w :
  (arg_int args "year" = None ->
   respond ApiMakes args w = ok empty_list
   /\ untouched w (serve ApiMakes args w).2)
  /\ (forall y rows,
        arg_int args "year" = Some y -> source w = AllCars rows ->
        clean_years rows ->
        (Text.fits_int64 y ->
         exists ms : list string,
           respond ApiMakes args w = ok (JArr (JStr <$> ms))
           /\ (forall m, m ∈ ms <->
                 exists r, r ∈ rows /\ Gradeable r
                           /\ Spec.parsed_year (ModelYear r) = Some y
                           /\ Make r = m)
           /\ strictly_ascending ms /\ NoDup ms)
        /\ (~ Text.fits_int64 y ->
            respond ApiMakes args w = Resp empty_list 500)).
Proof.
  split.
  - intros Hy. unfold respond. rewrite serve_makes_no_year by done.
    by destruct w.
  - intros y rows Hy Hsrc Hclean. split.
    + intros Hfit. destruct w as [src g tr]. simpl in Hsrc. subst src.
      exists (Sql.select_makes y rows).
      assert (Hsorted : strictly_ascending (Sql.select_makes y rows))
        by apply ordered_distinct_text.
      split; [|split; [|split]].
      * unfold respond. by rewrite (serve_makes_table _ y).
      * intros m. rewrite elem_of_select_makes.
        split; intros (r & Hin & Hg & Hyr & Hrest); exists r;
          (split; [done|]); (split; [done|]); (split; [|done]);
          by apply (clean_stored_year rows).
      * exact Hsorted.
      * by apply strictly_ascending_NoDup.
    + intros Hfit. apply (respond_makes_fails _ y); [done|].
      rewrite Hsrc. simpl. by rewrite bindable_QMakes.
Qed.

Lemma makes_exact_on_clean_table_witness :
  (respond ApiMakes ∅ (fresh (AllCars Sample.table)) = ok empty_list
   /\ untouched (fresh (AllCars Sample.table))
        (serve ApiMakes ∅ (fresh (AllCars Sample.table))).2)
  /\ (exists ms : list string,
        respond ApiMakes (Sample.year_only "2018") (fresh (AllCars Sample.table))
        = ok (JArr (JStr <$> ms))
        /\ (forall m, m ∈ ms <->
              exists r, r ∈ Sample.table /\ Gradeable r
                        /\ Spec.parsed_year (ModelYear r) = Some 2018
                        /\ Make r = m)
        /\ strictly_ascending ms /\ NoDup ms)
  /\ respond ApiMakes (Sample.year_only "2018") (fresh (AllCars Sample.table))
     = ok (JArr [JStr "Honda"]).
Proof.
  split; [|split].
  - apply (proj1 (makes_exact_on_clean_table ∅ (fresh (AllCars Sample.table)))).
    reflexivity.
  - apply (proj2 (makes_exact_on_clean_table (Sample.year_only "2018")
                    (fresh (AllCars Sample.table))) 2018 Sample.table).
    + reflexivity.
    + reflexivity.
    + apply sample_table_clean.
    + vm_compute. split; discriminate.
  - reflexivity.
Defined.

(** X19. For a well-formed request whose year is within the signed
    64-bit range, on a readable table with clean year texts,
    [/api/grade] answers 404 with [{"error": "Not found"}] exactly when
    no gradeable record has a year text that parses to the year together
    with the make and the model asked for; when some record matches, the
    answer is 200, built from the first match in table order. *)
Theorem grade_not_found_iff_no_parsed_match args w y mk mo rows :
  well_formed args y mk mo -> source w = AllCars rows ->
  Text.fits_int64 y -> clean_years rows ->
  (respond ApiGrade args w = Resp (error "Not found") 404
   <-> forall r, r ∈ rows -> ~ SpecMatches y mk mo r)
  /\ ((exists r, r ∈ rows /\ SpecMatches y mk mo r) ->
      exists pre first post,
        rows = pre ++ first :: post /\ SpecMatches y mk mo first
        /\ Forall (fun z => ~ SpecMatches y mk mo z) pre
        /\ respond ApiGrade args w
           = ok (grade_body y mk mo (Sql.ROUND1 (Score first))
                   (Sql.ROUND1 (Certainty first)))).
Proof.
  intros Hw Hsrc Hfit Hclean.
  rewrite (respond_grade_executed _ _ y mk mo rows) by done.
  destruct (Sql.select_grade y mk mo rows) as [[s c]|] eqn:Hsel; simpl.
  - pose proof Hsel as Hsome.
    apply select_grade_Some in Hsome
      as (pre & first & post & Hrows & Hm & Hpre & -> & ->).
    assert (Hfirst : first ∈ rows).
    { rewrite Hrows. apply elem_of_app. right. by left. }
    split.
    + split; [discriminate|]. intros Hno. exfalso.
      apply (Hno first Hfirst). by apply (clean_Matches rows).
    + intros _. exists pre, first, post. split; [done|].
      split; [by apply (clean_Matches rows)|]. split; [|done].
      apply Forall_forall. intros z Hz Hsm.
      apply (proj1 (Forall_forall _ _) Hpre z Hz).
      apply (clean_Matches rows); [done| |done].
      rewrite Hrows. apply elem_of_app. by left.
  - pose proof (proj1 (select_grade_None y mk mo rows) Hsel) as Hnone. split.
    + split; [|done]. intros _ r Hin Hsm.
      apply (Hnone r Hin). by apply (clean_Matches rows).
    + intros (r & Hin & Hsm). exfalso.
      apply (Hnone r Hin). by apply (clean_Matches rows).
Qed.

Lemma grade_not_found_iff_no_parsed_match_witness :
  ((respond ApiGrade (Sample.request "2018" "Honda" "Civic")
      (fresh (AllCars Sample.table)) = Resp (error "Not found") 404
    <-> forall r, r ∈ Sample.table -> ~ SpecMatches 2018 "Honda" "Civic" r)
   /\ ((exists r, r ∈ Sample.table /\ SpecMatches 2018 "Honda" "Civic" r) ->
       exists pre first post,
         Sample.table = pre ++ first :: post
         /\ SpecMatches 2018 "Honda" "Civic" first
         /\ Forall (fun z => ~ SpecMatches 2018 "Honda" "Civic" z) pre
         /\ respond ApiGrade (Sample.request "2018" "Honda" "Civic")
              (fresh (AllCars Sample.table))
            = ok (grade_body 2018 "Honda" "Civic"
                    (Sql.ROUND1 (Score first)) (Sql.ROUND1 (Certainty first)))))
  /\ respond ApiGrade (Sample.request "2018" "Honda" "Civic")
       (fresh (AllCars Sample.table))
     = ok (grade_json 2018 "Honda" "Civic" (Dec 78 1) (Dec 43 1))
  /\ respond ApiGrade (Sample.request "1899" "Nonexistent" "Model")
       (fresh (AllCars Sample.table))
     = Resp (error "Not found") 404.
Proof.
  split; [|split; reflexivity].
  apply (grade_not_found_iff_no_parsed_match
           (Sample.request "2018" "Honda" "Civic")
           (fresh (AllCars Sample.table)) 2018 "Honda" "Civic" Sample.table).
  - unfold well_formed. repeat split; try reflexivity; discriminate.
  - reflexivity.
  - vm_compute. split; discriminate.
  - apply sample_table_clean.
Defined.
